(** * Egyptian National ID extractor: a shallow embedding of [id_extractor.py]

  The development follows the source file top to bottom:

  - [PyStr]: Python [str] values as lists of Unicode code points, with the
    built-ins the program calls ([str.isdigit], [str.strip], [len],
    slicing, [dict.get]);
  - [Base64]: [base64.b64encode];
  - [Json]: parsed JSON values with Python's truthiness and subscripting;
  - [Extractor]: the program itself, written in a small monad that
    threads the output log, the network and the exceptions the source
    catches;
  - [Spec]: the behaviour the specification describes, and sample data;
  - [Observations]: further notions used to describe runs;
  - [PyStrFacts], [NormalizerFacts], [AttemptFacts], [LoopFacts],
    [PipelineFacts]: what is proved of the program, leaves first;
  - [FallbackProperties], [RunProperties], [Base64Properties]: further
    properties of the normalizer, of the runs and of the encoding. *)

From Stdlib Require Import List NArith ZArith Bool Arith Lia String Ascii.
Import ListNotations.

Set Warnings "-register-all".

Set Implicit Arguments.

(* ===================================================================== *)
(** ** Python strings *)
(* ===================================================================== *)

Module PyStr.

(** A Python [str] is a sequence of Unicode code points; [len] counts
    code points and [s[:n]] keeps code points. *)
Definition codepoint := N.
Definition str := list codepoint.

Definition len (s : str) : nat := List.length s.

(** [s[:n]] *)
Definition slice_to (n : nat) (s : str) : str := firstn n s.

(** *** Literals

    Source literals are written here as UTF-8 text and decoded to code
    points, so that they can be compared with the source by eye. *)

Fixpoint bytes_of_string (s : string) : list N :=
  match s with
  | EmptyString => []
  | String a r => N_of_ascii a :: bytes_of_string r
  end.

Definition cont (b : N) : N := N.land b 63.

Fixpoint utf8_decode (bs : list N) : str :=
  match bs with
  | [] => []
  | b0 :: t0 =>
      if b0 <? 128 then b0 :: utf8_decode t0
      else match t0 with
      | [] => []
      | b1 :: t1 =>
          if b0 <? 224 then
            (N.shiftl (N.land b0 31) 6 + cont b1) :: utf8_decode t1
          else match t1 with
          | [] => []
          | b2 :: t2 =>
              if b0 <? 240 then
                (N.shiftl (N.land b0 15) 12 + N.shiftl (cont b1) 6 + cont b2)
                  :: utf8_decode t2
              else match t2 with
              | [] => []
              | b3 :: t3 =>
                  (N.shiftl (N.land b0 7) 18 + N.shiftl (cont b1) 12
                   + N.shiftl (cont b2) 6 + cont b3) :: utf8_decode t3
              end
          end
      end
  end%N.

Definition lit (s : string) : str := utf8_decode (bytes_of_string s).

(** *** Character classes

    A class is a list of inclusive code point ranges. *)

Definition ranges := list (N * N).

Definition in_range (c : codepoint) (r : N * N) : bool :=
  ((fst r <=? c) && (c <=? snd r))%N.

Definition in_ranges (rs : ranges) (c : codepoint) : bool :=
  existsb (in_range c) rs.

(** [str.isdigit] on one character: true exactly for the characters
    whose Unicode property Numeric_Type is Digit or Decimal.  The table
    is the one of the Unicode Character Database 14.0 (CPython 3.11). *)
Definition digit_ranges : ranges :=
  [ (0x30, 0x39); (0xB2, 0xB3); (0xB9, 0xB9); (0x660, 0x669);
    (0x6F0, 0x6F9); (0x7C0, 0x7C9); (0x966, 0x96F); (0x9E6, 0x9EF);
    (0xA66, 0xA6F); (0xAE6, 0xAEF); (0xB66, 0xB6F); (0xBE6, 0xBEF);
    (0xC66, 0xC6F); (0xCE6, 0xCEF); (0xD66, 0xD6F); (0xDE6, 0xDEF);
    (0xE50, 0xE59); (0xED0, 0xED9); (0xF20, 0xF29); (0x1040, 0x1049);
    (0x1090, 0x1099); (0x1369, 0x1371); (0x17E0, 0x17E9);
    (0x1810, 0x1819); (0x1946, 0x194F); (0x19D0, 0x19DA);
    (0x1A80, 0x1A89); (0x1A90, 0x1A99); (0x1B50, 0x1B59);
    (0x1BB0, 0x1BB9); (0x1C40, 0x1C49); (0x1C50, 0x1C59);
    (0x2070, 0x2070); (0x2074, 0x2079); (0x2080, 0x2089);
    (0x2460, 0x2468); (0x2474, 0x247C); (0x2488, 0x2490);
    (0x24EA, 0x24EA); (0x24F5, 0x24FD); (0x24FF, 0x24FF);
    (0x2776, 0x277E); (0x2780, 0x2788); (0x278A, 0x2792);
    (0xA620, 0xA629); (0xA8D0, 0xA8D9); (0xA900, 0xA909);
    (0xA9D0, 0xA9D9); (0xA9F0, 0xA9F9); (0xAA50, 0xAA59);
    (0xABF0, 0xABF9); (0xFF10, 0xFF19); (0x104A0, 0x104A9);
    (0x10A40, 0x10A43); (0x10D30, 0x10D39); (0x10E60, 0x10E68);
    (0x11052, 0x1105A); (0x11066, 0x1106F); (0x110F0, 0x110F9);
    (0x11136, 0x1113F); (0x111D0, 0x111D9); (0x112F0, 0x112F9);
    (0x11450, 0x11459); (0x114D0, 0x114D9); (0x11650, 0x11659);
    (0x116C0, 0x116C9); (0x11730, 0x11739); (0x118E0, 0x118E9);
    (0x11950, 0x11959); (0x11C50, 0x11C59); (0x11D50, 0x11D59);
    (0x11DA0, 0x11DA9); (0x16A60, 0x16A69); (0x16AC0, 0x16AC9);
    (0x16B50, 0x16B59); (0x1D7CE, 0x1D7FF); (0x1E140, 0x1E149);
    (0x1E2F0, 0x1E2F9); (0x1E950, 0x1E959); (0x1F100, 0x1F10A);
    (0x1FBF0, 0x1FBF9) ]%N.

Definition isdigit (c : codepoint) : bool := in_ranges digit_ranges c.

(** The characters [str.strip()] removes: those for which [str.isspace]
    holds. *)
Definition space_ranges : ranges :=
  [ (0x9, 0xD); (0x1C, 0x20); (0x85, 0x85); (0xA0, 0xA0);
    (0x1680, 0x1680); (0x2000, 0x200A); (0x2028, 0x2029);
    (0x202F, 0x202F); (0x205F, 0x205F); (0x3000, 0x3000) ]%N.

Definition isspace (c : codepoint) : bool := in_ranges space_ranges c.

(** The two classes the specification talks about. *)
Definition ascii_digit_ranges : ranges := [ (0x30, 0x39) ]%N.
Definition eastern_ranges : ranges := [ (0x660, 0x669) ]%N.

Definition is_ascii_digit (c : codepoint) : bool :=
  in_ranges ascii_digit_ranges c.
Definition is_eastern_glyph (c : codepoint) : bool :=
  in_ranges eastern_ranges c.

(** *** [str.strip()] *)

Fixpoint lstrip (s : str) : str :=
  match s with
  | [] => []
  | c :: r => if isspace c then lstrip r else s
  end.

Definition rstrip (s : str) : str := rev (lstrip (rev s)).

Definition strip (s : str) : str := rstrip (lstrip s).

(** [''.join(filter(str.isdigit, s))] *)
Definition filter_isdigit (s : str) : str := filter isdigit s.

(** *** [dict.get(key, default)] on a dict literal, kept as the list of
    its entries in source order. *)
Fixpoint dict_get (d : list (codepoint * codepoint)) (k dflt : codepoint)
  : codepoint :=
  match d with
  | [] => dflt
  | (k', v) :: r => if (k' =? k)%N then v else dict_get r k dflt
  end.

End PyStr.

Import PyStr.

(* ===================================================================== *)
(** ** [base64.b64encode] *)
(* ===================================================================== *)

Module Base64.

Definition bytes := list N.

(** The standard alphabet: [A-Z], [a-z], [0-9], [+], [/]. *)
Definition alphabet (i : N) : codepoint :=
  (if i <? 26 then 65 + i
   else if i <? 52 then 97 + (i - 26)
   else if i <? 62 then 48 + (i - 52)
   else if i =? 62 then 43
   else 47)%N.

Definition pad : codepoint := 61%N.

Fixpoint b64encode (bs : bytes) : str :=
  match bs with
  | [] => []
  | [a] =>
      [ alphabet (N.shiftr a 2);
        alphabet (N.shiftl (N.land a 3) 4);
        pad; pad ]
  | [a; b] =>
      [ alphabet (N.shiftr a 2);
        alphabet (N.lor (N.shiftl (N.land a 3) 4) (N.shiftr b 4));
        alphabet (N.shiftl (N.land b 15) 2);
        pad ]
  | a :: b :: c :: rest =>
      alphabet (N.shiftr a 2)
      :: alphabet (N.lor (N.shiftl (N.land a 3) 4) (N.shiftr b 4))
      :: alphabet (N.lor (N.shiftl (N.land b 15) 2) (N.shiftr c 6))
      :: alphabet (N.land c 63)
      :: b64encode rest
  end.

End Base64.

(* ===================================================================== *)
(** ** Parsed JSON values, as [response.json()] returns them *)
(* ===================================================================== *)

Module Json.

Fixpoint str_eqb (a b : str) : bool :=
  match a, b with
  | [], [] => true
  | x :: a', y :: b' => (x =? y)%N && str_eqb a' b'
  | _, _ => false
  end.

Inductive json :=
| JNull
| JBool (b : bool)
| JNum (z : Z)          (* integers; no claim depends on a float *)
| JStr (s : str)
| JList (l : list json)
| JDict (d : list (str * json)).

(** Python truthiness of a parsed value. *)
Definition truthy (v : json) : bool :=
  match v with
  | JNull => false
  | JBool b => b
  | JNum z => negb (Z.eqb z 0)
  | JStr s => negb (Nat.eqb (len s) 0)
  | JList l => negb (Nat.eqb (List.length l) 0)
  | JDict d => negb (Nat.eqb (List.length d) 0)
  end.

Fixpoint lookup (d : list (str * json)) (k : str) : option json :=
  match d with
  | [] => None
  | (k', v) :: r => if str_eqb k' k then Some v else lookup r k
  end.

(** [v.get(k)]: defined on dicts only ([None] models the
    [AttributeError] raised on every other value); a missing key yields
    Python's [None], here [JNull]. *)
Definition get (v : json) (k : str) : option json :=
  match v with
  | JDict d => Some (match lookup d k with Some x => x | None => JNull end)
  | _ => None
  end.

(** [v[k]] with a string key: [None] models [KeyError] / [TypeError]. *)
Definition getitem_key (v : json) (k : str) : option json :=
  match v with
  | JDict d => lookup d k
  | _ => None
  end.

(** [v[0]]: [None] models [IndexError] / [KeyError] / [TypeError]. *)
Definition getitem_0 (v : json) : option json :=
  match v with
  | JList (x :: _) => Some x
  | JStr (c :: _) => Some (JStr [c])
  | _ => None
  end.

(** [v.strip()]: defined on strings only. *)
Definition strip_method (v : json) : option str :=
  match v with
  | JStr s => Some (strip s)
  | _ => None
  end.

End Json.

(* ===================================================================== *)
(** ** The program *)
(* ===================================================================== *)

Module Extractor.

Import Base64 Json.

(** *** What the program does to the outside world *)

(** One constructor per [print] call of the source, in source order. *)
Inductive message :=
| LoadingImage (filepath : str)        (* "Loading image from: ..." *)
| ImageNotFound (filepath : str)       (* "Error: Image file not found at path: ..." *)
| ImageReadError                       (* "An error occurred while reading the image: ..." *)
| AttemptingCall (n max : nat)         (* "Attempting API call (Attempt n/max)..." *)
| ExtractionSuccessful                 (* "Extraction successful." *)
| UsingFallback                        (* "Extracted string not 14 digits. Using manual conversion fallback." *)
| NoValidContent                       (* "API response did not contain valid content." *)
| HTTPErrorMsg (status_code : N)       (* "HTTP Error: ..." *)
| RetryingIn (delay : nat)             (* "Retrying in delay seconds..." *)
| UnexpectedError                      (* "Unexpected error: ..." *)
| FailedAfterRetries                   (* "API call failed after multiple retries." *)
| ConfigurationError                   (* "*** ERROR: Please set your GEMINI_API_KEY environment variable. ***" *)
| StartingExtraction                   (* "--- Starting National ID Extraction ---" *)
| Banner                               (* "=============================================" *)
| ExtractedID (id : str)               (* "Extracted National ID (14 digits): ..." *)
| FailedToExtract                      (* "Failed to extract the 14-digit National ID." *)
| ExtractionComplete.                  (* "--- Extraction Complete ---" *)

Inductive event :=
| Print (m : message)
| Input (prompt : str)                 (* input(prompt) *)
| Post (url : str) (payload : json)    (* requests.post(url, ..., data=json.dumps(payload)) *)
| Sleep (seconds : nat).               (* time.sleep(seconds) *)

(** The exceptions the source tells apart. *)
Inductive exn :=
| FileNotFoundError
| HTTPError (status_code : N)
| OtherException.

(** What opening and reading a path gives. *)
Inductive file :=
| Absent
| Unreadable
| Contents (data : bytes).

(** What one POST gives: no HTTP response at all, or a status with a body
    that parses as JSON ([Some]) or does not ([None]). *)
Inductive reply :=
| ConnectionFailure
| Response (status_code : N) (body : option json).

(** The state threaded through the program: the number of POSTs issued
    so far and everything done so far, oldest first. *)
Record world := { posts : nat; trace : list event }.

Definition start : world := {| posts := 0; trace := [] |}.

(** A computation either raises or returns, and leaves a new world. *)
Definition M (A : Type) := world -> (exn + A) * world.

Definition ret {A} (a : A) : M A := fun w => (inr a, w).

Definition bind {A B} (m : M A) (f : A -> M B) : M B :=
  fun w => match m w with
           | (inl e, w') => (inl e, w')
           | (inr a, w') => f a w'
           end.

Definition raise {A} (e : exn) : M A := fun w => (inl e, w).

(** [try: body except e: handler e] *)
Definition try_except {A} (body : M A) (handler : exn -> M A) : M A :=
  fun w => match body w with
           | (inl e, w') => handler e w'
           | r => r
           end.

Definition emit (e : event) : M unit :=
  fun w => (inr tt, {| posts := posts w; trace := trace w ++ [e] |}).

(** [print]: the line is taken to reach standard output; a stream that
    cannot encode it, on which Python's [print] raises, is outside the
    model. *)
Definition print (m : message) : M unit := emit (Print m).

(** An optional value that raises [OtherException] when absent. *)
Definition or_raise {A} (o : option A) : M A :=
  match o with
  | Some a => ret a
  | None => raise OtherException
  end.

Declare Scope py_scope.
Delimit Scope py_scope with py.
Notation "x <- c1 ;; c2" := (bind c1 (fun x => c2))
  (at level 61, c1 at next level, right associativity) : py_scope.
Notation "c1 ;; c2" := (bind c1 (fun _ => c2))
  (at level 61, right associativity) : py_scope.
Local Open Scope py_scope.

(** What a loop body asks for: leave the function with a value, or go on
    with the next iteration. *)
Inductive flow :=
| Return (v : option str)
| Next.

(** *** Configuration (lines 9-11) *)

Definition PLACEHOLDER : str := lit "PUT_YOUR_API_KEY_HERE".

Definition MODEL_NAME : str := lit "gemini-2.5-flash-preview-09-2025".

(** [API_URL_TEMPLATE.format(model=model, key=key)] *)
Definition API_URL_TEMPLATE_format (model key : str) : str :=
  lit "https://generativelanguage.googleapis.com/v1beta/models/"
  ++ model ++ lit ":generateContent?key=" ++ key.

(** *** [manual_conversion_fallback] (lines 27-35) *)

Definition ARABIC_TO_WESTERN : list (codepoint * codepoint) :=
  [ (0x660, 0x30); (0x661, 0x31); (0x662, 0x32); (0x663, 0x33);
    (0x664, 0x34); (0x665, 0x35); (0x666, 0x36); (0x667, 0x37);
    (0x668, 0x38); (0x669, 0x39) ]%N.

Definition manual_conversion_fallback (text : str) : option str :=
  let western_digits := map (fun c => dict_get ARABIC_TO_WESTERN c c) text in
  let final_id := filter_isdigit western_digits in
  if 14 <=? len final_id then Some (slice_to 14 final_id) else None.

(** *** The request payload (lines 43-71) *)

Definition mime_type : str := lit "image/jpeg".

Definition system_instruction : str :=
  lit "You are an OCR and data extraction expert focused on identifying Egyptian National "
  ++ lit "ID numbers (14 digits) from images. The number is typically written in Eastern "
  ++ lit "Arabic numerals. You MUST find the 14-digit sequence, convert it to Western Arabic "
  ++ lit "numerals (0-9), and return *only* the 14-digit string. Do not include spaces, "
  ++ lit "explanations, or any surrounding text. The required length is exactly 14 characters.".

Definition user_query : str :=
  lit "Extract the 14-digit National ID from the image.".

Definition build_payload (base64_image : str) : json :=
  JDict
    [ (lit "contents",
       JList
         [ JDict
             [ (lit "role", JStr (lit "user"));
               (lit "parts",
                JList
                  [ JDict [ (lit "text", JStr user_query) ];
                    JDict
                      [ (lit "inlineData",
                         JDict [ (lit "mimeType", JStr mime_type);
                                 (lit "data", JStr base64_image) ]) ] ]) ] ]);
      (lit "systemInstruction",
       JDict [ (lit "parts", JList [ JDict [ (lit "text", JStr system_instruction) ] ]) ]) ].

Definition max_retries : nat := 5.

Definition retryable (status_code : N) : bool :=
  existsb (N.eqb status_code) [429; 500; 503]%N.

(** [range(n)] *)
Definition range (n : nat) : list nat := seq 0 n.

Section Program.

(** The surroundings of one run: the value of the environment variable
    [GEMINI_API_KEY] if it is set, the line typed at the prompt if there
    is one, the file system, and the remote service as the reply it gives
    to the POST number [k] (from 0). *)
Variable environ_GEMINI_API_KEY : option str.
Variable stdin : option str.
Variable fs : str -> file.
Variable net : nat -> reply.

(** Line 9: [os.environ.get('GEMINI_API_KEY', 'PUT_YOUR_API_KEY_HERE')] *)
Definition API_KEY : str :=
  match environ_GEMINI_API_KEY with
  | Some v => v
  | None => PLACEHOLDER
  end.

(** [open(filepath, "rb")] followed by [f.read()] *)
Definition open_read (filepath : str) : M bytes :=
  match fs filepath with
  | Absent => raise FileNotFoundError
  | Unreadable => raise OtherException
  | Contents data => ret data
  end.

(** [requests.post]: one network call, answered by the service.  Every
    call is taken to come back, with a response or an exception; line 78
    sets no timeout, and a service that never answers is outside the
    model. *)
Definition requests_post (url : str) (payload : json) : M (N * option json) :=
  fun w =>
    let w' := {| posts := S (posts w); trace := trace w ++ [Post url payload] |} in
    match net (posts w) with
    | ConnectionFailure => (inl OtherException, w')
    | Response status_code body => (inr (status_code, body), w')
    end.

(** [response.raise_for_status()] *)
Definition raise_for_status (response : N * option json) : M unit :=
  let status_code := fst response in
  if ((400 <=? status_code) && (status_code <? 600))%N
  then raise (HTTPError status_code)
  else ret tt.

(** [response.json()] *)
Definition response_json (response : N * option json) : M json :=
  or_raise (snd response).

(** [time.sleep] *)
Definition sleep (seconds : nat) : M unit := emit (Sleep seconds).

(** [input(prompt)]; at end of input it raises. *)
Definition input (prompt : str) : M str :=
  emit (Input prompt) ;; or_raise stdin.

(** *** [image_to_base64] (lines 14-25) *)

Definition image_to_base64 (filepath : str) : M (option str) :=
  print (LoadingImage filepath) ;;
  try_except
    (data <- open_read filepath ;;
     ret (Some (b64encode data)))
    (fun e =>
       match e with
       | FileNotFoundError =>
           print (ImageNotFound filepath) ;;
           ret None
       | _ =>
           print ImageReadError ;;
           ret None
       end).

(** [not base64_image] *)
Definition falsy (v : option str) : bool :=
  match v with
  | None => true
  | Some s => Nat.eqb (len s) 0
  end.

(** *** [extract_id_from_image] (lines 37-109) *)

(** The body of the [try] block of one iteration (lines 77-94). *)
Definition attempt_body (url : str) (payload : json) (attempt : nat) : M flow :=
  print (AttemptingCall (attempt + 1) max_retries) ;;
  response <- requests_post url payload ;;
  raise_for_status response ;;
  result <- response_json response ;;
  candidates <- or_raise (get result (lit "candidates")) ;;
  if truthy candidates then
    c <- or_raise (getitem_key result (lit "candidates")) ;;
    c0 <- or_raise (getitem_0 c) ;;
    content <- or_raise (getitem_key c0 (lit "content")) ;;
    parts <- or_raise (getitem_key content (lit "parts")) ;;
    p0 <- or_raise (getitem_0 parts) ;;
    t <- or_raise (getitem_key p0 (lit "text")) ;;
    text <- or_raise (strip_method t) ;;
    let cleaned_id := filter_isdigit text in
    if Nat.eqb (len cleaned_id) 14 then
      print ExtractionSuccessful ;;
      ret (Return (Some cleaned_id))
    else
      print UsingFallback ;;
      ret (Return (manual_conversion_fallback text))
  else
    print NoValidContent ;;
    ret (Return None).

(** The two [except] clauses (lines 96-106). *)
Definition attempt_handler (attempt : nat) (e : exn) : M flow :=
  match e with
  | HTTPError status_code =>
      print (HTTPErrorMsg status_code) ;;
      if retryable status_code && (attempt <? max_retries - 1) then
        let delay := 2 ^ attempt in
        print (RetryingIn delay) ;;
        sleep delay ;;
        ret Next
      else
        ret (Return None)
  | _ =>
      print UnexpectedError ;;
      ret (Return None)
  end.

(** [for attempt in <attempts>: ...] followed by lines 108-109. *)
Fixpoint attempts_loop (url : str) (payload : json) (attempts : list nat)
  : M (option str) :=
  match attempts with
  | [] =>
      print FailedAfterRetries ;;
      ret None
  | attempt :: rest =>
      f <- try_except (attempt_body url payload attempt)
                      (attempt_handler attempt) ;;
      match f with
      | Return v => ret v
      | Next => attempts_loop url payload rest
      end
  end.

Definition extract_id_from_image (image_path : str) : M (option str) :=
  base64_image <- image_to_base64 image_path ;;
  match base64_image with
  | Some b64 =>
      if falsy base64_image then ret None
      else
        let payload := build_payload b64 in
        let url := API_URL_TEMPLATE_format MODEL_NAME API_KEY in
        attempts_loop url payload (range max_retries)
  | None => ret None
  end.

(** *** Main execution (lines 112-126) *)

Definition main : M unit :=
  if str_eqb API_KEY PLACEHOLDER then
    print ConfigurationError
  else
    IMAGE_FILE_PATH <- input (lit "Enter full path to ID image file: ") ;;
    print StartingExtraction ;;
    extracted_id <- extract_id_from_image IMAGE_FILE_PATH ;;
    (match extracted_id with
     | Some id =>
         if falsy extracted_id then print FailedToExtract
         else
           print Banner ;;
           print (ExtractedID id) ;;
           print Banner
     | None => print FailedToExtract
     end) ;;
    print ExtractionComplete.

End Program.

(** *** Reading a run *)

Definition is_post (e : event) : bool :=
  match e with Post _ _ => true | _ => false end.

Definition is_sleep (e : event) : bool :=
  match e with Sleep _ => true | _ => false end.

Definition is_network (e : event) : bool := is_post e || is_sleep e.

(** The POSTs issued and the delays slept, in order. *)
Definition network_activity (t : list event) : list event := filter is_network t.

Definition count_posts (t : list event) : nat := List.length (filter is_post t).

Definition delays (t : list event) : list nat :=
  flat_map (fun e => match e with Sleep s => [s] | _ => [] end) t.

Definition printed (t : list event) : list message :=
  flat_map (fun e => match e with Print m => [m] | _ => [] end) t.

(** The world after the image loader announced itself. *)
Definition loading (filepath : str) (w : world) : world :=
  {| posts := posts w; trace := trace w ++ [Print (LoadingImage filepath)] |}.

(** Whether the message of line 108 was printed. *)
Definition is_exhaustion_message (e : event) : bool :=
  match e with Print FailedAfterRetries => true | _ => false end.

Definition reports_exhaustion (t : list event) : bool :=
  existsb is_exhaustion_message t.

(** One retried attempt, as seen on the network: a POST, then a delay of
    [2 ^ attempt] seconds. *)
Definition retried (url : str) (payload : json) (attempt : nat) : list event :=
  [Post url payload; Sleep (2 ^ attempt)].

End Extractor.

(* ===================================================================== *)
(** ** The behaviour the specification describes *)
(* ===================================================================== *)

Module Spec.

Import Json Extractor.

(** *** The Digit Normalizer, in the words of the specification *)

(** The Western Arabic equivalent of an Eastern Arabic numeral glyph:
    U+0660 .. U+0669 stand for 0 .. 9. *)
Definition western_equivalent (c : codepoint) : codepoint :=
  (c - 0x660 + 0x30)%N.

(** Step (1): each of the ten glyphs is replaced, every other character
    is left unchanged. *)
Definition transliterate (c : codepoint) : codepoint :=
  if is_eastern_glyph c then western_equivalent c else c.

(** Steps (1) to (3), for a given notion of the characters step (2)
    keeps. *)
Definition normalize_with (keep : codepoint -> bool) (text : str) : option str :=
  let converted := map transliterate text in
  let digits := filter keep converted in
  if 14 <=? List.length digits then Some (firstn 14 digits) else None.

(** Step (2) as written: only the ASCII digits are kept. *)
Definition spec_normalize : str -> option str := normalize_with is_ascii_digit.

(** The digit-filtered content of a text: those of its characters that
    are digits for [str.isdigit], in order, each as it stands in the
    text. *)
Fixpoint digits_of (text : str) : str :=
  match text with
  | [] => []
  | c :: rest => if isdigit c then c :: digits_of rest else digits_of rest
  end.

(** A NationalID as the data model has it. *)
Definition is_national_id (s : str) : Prop :=
  len s = 14 /\ Forall (fun c => is_ascii_digit c = true) s.

(** *** What one reply amounts to for lines 78-83 *)

Definition obind {A B} (o : option A) (f : A -> option B) : option B :=
  match o with
  | Some a => f a
  | None => None
  end.

(** [result['candidates'][0]['content']['parts'][0]['text'].strip()] *)
Definition first_text (result : json) : option str :=
  obind (getitem_key result (lit "candidates")) (fun c =>
  obind (getitem_0 c) (fun c0 =>
  obind (getitem_key c0 (lit "content")) (fun content =>
  obind (getitem_key content (lit "parts")) (fun parts =>
  obind (getitem_0 parts) (fun p0 =>
  obind (getitem_key p0 (lit "text")) strip_method))))).

Inductive outcome :=
| Text (text : str)            (* a candidate whose stripped text is [text] *)
| NoCandidates                 (* a well-formed response without candidates *)
| HttpFailure (status_code : N)  (* [raise_for_status] raised *)
| Raised.                      (* any other exception *)

Definition is_error_status (status_code : N) : bool :=
  ((400 <=? status_code) && (status_code <? 600))%N.

Definition outcome_of (r : reply) : outcome :=
  match r with
  | ConnectionFailure => Raised
  | Response status_code body =>
      if is_error_status status_code then HttpFailure status_code
      else match body with
           | None => Raised
           | Some result =>
               match get result (lit "candidates") with
               | None => Raised
               | Some candidates =>
                   if truthy candidates then
                     match first_text result with
                     | Some text => Text text
                     | None => Raised
                     end
                   else NoCandidates
               end
           end
  end.

(** The three ways an attempt fails for good. *)
Definition fails_for_good (r : reply) : Prop :=
  match outcome_of r with
  | HttpFailure status_code => retryable status_code = false
  | Raised => True
  | NoCandidates => True
  | Text _ => False
  end.

(** An attempt that fails with 429, 500 or 503. *)
Definition fails_retryably (r : reply) : Prop :=
  exists status_code body,
    r = Response status_code body /\ retryable status_code = true.

(** The value an attempt returns, or [Next]. *)
Definition flow_of (attempt : nat) (o : outcome) : flow :=
  match o with
  | Text text =>
      if Nat.eqb (len (filter_isdigit text)) 14
      then Return (Some (filter_isdigit text))
      else Return (manual_conversion_fallback text)
  | NoCandidates => Return None
  | HttpFailure status_code =>
      if retryable status_code && (attempt <? max_retries - 1)
      then Next else Return None
  | Raised => Return None
  end.

(** What an attempt does after its POST. *)
Definition events_of (attempt : nat) (o : outcome) : list event :=
  match o with
  | Text text =>
      if Nat.eqb (len (filter_isdigit text)) 14
      then [Print ExtractionSuccessful]
      else [Print UsingFallback]
  | NoCandidates => [Print NoValidContent]
  | HttpFailure status_code =>
      Print (HTTPErrorMsg status_code)
      :: (if retryable status_code && (attempt <? max_retries - 1)
          then [Print (RetryingIn (2 ^ attempt)); Sleep (2 ^ attempt)]
          else [])
  | Raised => [Print UnexpectedError]
  end.

(** The response shape of the remote service contract:
    [{ candidates: [{ content: { parts: [{ text }] } }] }]. *)
Definition candidate_response (text : str) : json :=
  JDict
    [ (lit "candidates",
       JList
         [ JDict
             [ (lit "content",
                JDict
                  [ (lit "parts",
                     JList [ JDict [ (lit "text", JStr text) ] ]) ]) ] ]) ].

(** *** Sample data *)

Definition sample_path : str := lit "/tmp/id_card.jpg".

Definition sample_key : option str := Some (lit "test-key").

(** A file system holding one small file, an empty one and a protected
    one. *)
Definition sample_fs (filepath : str) : file :=
  if str_eqb filepath sample_path then Contents [255; 216; 255; 224]%N
  else if str_eqb filepath (lit "/tmp/empty.jpg") then Contents []
  else if str_eqb filepath (lit "/root/secret.jpg") then Unreadable
  else Absent.

(** A service that answers every POST with the same text. *)
Definition always_text (text : str) (k : nat) : reply :=
  Response 200 (Some (candidate_response text)).

(** A service that answers every POST with the same status and no
    usable body. *)
Definition always_status (status_code : N) (k : nat) : reply :=
  Response status_code None.

(** A service that fails with 503 until POST number [n], which it
    answers with status [status_code]. *)
Definition status_after (n : nat) (status_code : N) (k : nat) : reply :=
  if k <? n then Response 503 None else Response status_code None.

Definition eastern_14 : str := lit "١٢٣٤٥٦٧٨٩٠١٢٣٤".

Definition eastern_mixed : str := lit "ID: ١٢٣-٤٥٦-٧٨٩-٠١٢-٣٤".

Definition western_14 : str := lit "12345678901234".

(** Fifteen Eastern Arabic glyphs. *)
Definition eastern_15 : str := lit "١٢٣٤٥٦٧٨٩٠١٢٣٤٥".

(** Fourteen Extended Arabic-Indic (Persian) digits, U+06F0 .. U+06F9. *)
Definition persian_14 : str := lit "۱۲۳۴۵۶۷۸۹۰۱۲۳۴".

End Spec.

(* ===================================================================== *)
(** ** Further notions used to describe runs *)
(* ===================================================================== *)

Module Observations.

Import Json Extractor Spec.

(** The seconds slept during a run. *)
Definition total_delay (t : list event) : nat := list_sum (delays t).

(** A text whose digits (for [str.isdigit]) are all ASCII digits: what
    the system instruction asks the service to answer. *)
Definition western_only (text : str) : Prop :=
  Forall (fun c => isdigit c = true -> is_ascii_digit c = true) text.

(** A text whose digits are ASCII digits or Eastern Arabic glyphs. *)
Definition arabic_only (text : str) : Prop :=
  Forall (fun c => isdigit c = true ->
                   is_ascii_digit c = true \/ is_eastern_glyph c = true) text.

(** The boolean checks of the two. *)
Definition western_onlyb (text : str) : bool :=
  forallb (fun c => implb (isdigit c) (is_ascii_digit c)) text.

Definition arabic_onlyb (text : str) : bool :=
  forallb (fun c => implb (isdigit c) (is_ascii_digit c || is_eastern_glyph c))
    text.

(** The characters of base64 text: [A-Z], [a-z], [0-9], [+], [/] and
    the padding [=]. *)
Definition base64_ranges : ranges :=
  [ (65, 90); (97, 122); (48, 57); (43, 43); (47, 47); (61, 61) ]%N.

Definition is_base64_char (c : codepoint) : bool := in_ranges base64_ranges c.

Definition is_byte (b : N) : bool := (b <? 256)%N.

(** The six bits a base64 character stands for. *)
Definition sextet (c : codepoint) : N :=
  (if (65 <=? c) && (c <=? 90) then c - 65
   else if (97 <=? c) && (c <=? 122) then c - 97 + 26
   else if (48 <=? c) && (c <=? 57) then c - 48 + 52
   else if c =? 43 then 62
   else 63)%N.

(** Reading base64 text back, four characters at a time, up to the
    first padded group. *)
Fixpoint b64decode (s : str) : Base64.bytes :=
  match s with
  | c0 :: c1 :: c2 :: c3 :: rest =>
      let a := N.lor (N.shiftl (sextet c0) 2) (N.shiftr (sextet c1) 4) in
      let b := N.lor (N.shiftl (N.land (sextet c1) 15) 4)
                     (N.shiftr (sextet c2) 2) in
      let c := N.lor (N.shiftl (N.land (sextet c2) 3) 6) (sextet c3) in
      if (c2 =? Base64.pad)%N then [a]
      else if (c3 =? Base64.pad)%N then [a; b]
      else a :: b :: c :: b64decode rest
  | _ => []
  end.

Definition byte_values : list N := map N.of_nat (seq 0 256).

(** The four characters of a full group, as [b64encode] computes them,
    and the two characters that differ in a padded group. *)
Definition e0 (a : N) : codepoint := Base64.alphabet (N.shiftr a 2).
Definition e1 (a b : N) : codepoint :=
  Base64.alphabet (N.lor (N.shiftl (N.land a 3) 4) (N.shiftr b 4)).
Definition e2 (b c : N) : codepoint :=
  Base64.alphabet (N.lor (N.shiftl (N.land b 15) 2) (N.shiftr c 6)).
Definition e3 (c : N) : codepoint := Base64.alphabet (N.land c 63).
Definition e1_last (a : N) : codepoint :=
  Base64.alphabet (N.shiftl (N.land a 3) 4).
Definition e2_last (b : N) : codepoint :=
  Base64.alphabet (N.shiftl (N.land b 15) 2).

(** An answer with spaces around it, prose, punctuation and exactly
    fourteen Eastern Arabic glyphs; and one with fifteen glyphs. *)
Definition padded_eastern_mixed : str := lit "  ID: ١٢٣-٤٥٦-٧٨٩-٠١٢-٣٤  ".

Definition prose_eastern_15 : str := lit "ID ١٢٣٤٥٦٧٨٩٠١٢٣٤٥ (card)".

(** A service that fails with 503 until POST number [n], which it
    answers with a text. *)
Definition text_after (n : nat) (text : str) (k : nat) : reply :=
  if k <? n then Response 503 None
  else Response 200 (Some (candidate_response text)).

(** What the first answer with a text gives (lines 84-91). *)
Definition id_of_text (text : str) : option str :=
  if Nat.eqb (len (filter_isdigit text)) 14
  then Some (filter_isdigit text)
  else manual_conversion_fallback text.

End Observations.

(* ===================================================================== *)
(** ** Facts about characters *)
(* ===================================================================== *)

Module PyStrFacts.

Import Extractor Spec.

Lemma in_ranges_intro (rs : ranges) (r : N * N) (c : codepoint) :
  In r rs -> in_range c r = true -> in_ranges rs c = true.
Proof.
  intros Hin Hr. unfold in_ranges. apply existsb_exists. now exists r.
Qed.

Lemma is_ascii_digit_bounds (c : codepoint) :
  is_ascii_digit c = true <-> (0x30 <= c <= 0x39)%N.
Proof.
  unfold is_ascii_digit, in_ranges, ascii_digit_ranges, in_range.
  cbn [existsb fst snd]. rewrite orb_false_r, andb_true_iff, !N.leb_le.
  reflexivity.
Qed.

Lemma is_eastern_glyph_bounds (c : codepoint) :
  is_eastern_glyph c = true <-> (0x660 <= c <= 0x669)%N.
Proof.
  unfold is_eastern_glyph, in_ranges, eastern_ranges, in_range.
  cbn [existsb fst snd]. rewrite orb_false_r, andb_true_iff, !N.leb_le.
  reflexivity.
Qed.

Lemma ascii_digit_isdigit (c : codepoint) :
  is_ascii_digit c = true -> isdigit c = true.
Proof.
  intros H. apply is_ascii_digit_bounds in H.
  apply in_ranges_intro with (r := (0x30, 0x39)%N).
  - left. reflexivity.
  - unfold in_range. cbn [fst snd]. apply andb_true_iff.
    rewrite !N.leb_le. exact H.
Qed.

Lemma eastern_glyph_isdigit (c : codepoint) :
  is_eastern_glyph c = true -> isdigit c = true.
Proof.
  intros H. apply is_eastern_glyph_bounds in H.
  apply in_ranges_intro with (r := (0x660, 0x669)%N).
  - do 3 right. left. reflexivity.
  - unfold in_range. cbn [fst snd]. apply andb_true_iff.
    rewrite !N.leb_le. exact H.
Qed.

Lemma eastern_glyph_not_ascii (c : codepoint) :
  is_eastern_glyph c = true -> is_ascii_digit c = false.
Proof.
  intros H. apply is_eastern_glyph_bounds in H.
  destruct (is_ascii_digit c) eqn:E; [|reflexivity].
  apply is_ascii_digit_bounds in E. lia.
Qed.

(** The ten-entry table is the arithmetic shift of the glyph block onto
    the ASCII digits, and the identity elsewhere. *)
Lemma ARABIC_TO_WESTERN_get (c : codepoint) :
  dict_get ARABIC_TO_WESTERN c c = transliterate c.
Proof.
  unfold transliterate, western_equivalent, ARABIC_TO_WESTERN, dict_get.
  repeat match goal with
         | |- context [(?a =? c)%N] =>
             destruct (N.eqb_spec a c); [subst c; reflexivity|]
         end.
  destruct (is_eastern_glyph c) eqn:E; [|reflexivity].
  apply is_eastern_glyph_bounds in E. lia.
Qed.

Lemma western_equivalent_ascii (c : codepoint) :
  is_eastern_glyph c = true -> is_ascii_digit (western_equivalent c) = true.
Proof.
  intros H. apply is_eastern_glyph_bounds in H.
  apply is_ascii_digit_bounds. unfold western_equivalent. lia.
Qed.

Lemma isdigit_transliterate (c : codepoint) :
  isdigit (transliterate c) = isdigit c.
Proof.
  unfold transliterate. destruct (is_eastern_glyph c) eqn:E; [|reflexivity].
  rewrite (eastern_glyph_isdigit c E).
  apply ascii_digit_isdigit, western_equivalent_ascii, E.
Qed.

Lemma is_ascii_digit_transliterate (c : codepoint) :
  is_ascii_digit (transliterate c) = is_ascii_digit c || is_eastern_glyph c.
Proof.
  unfold transliterate. destruct (is_eastern_glyph c) eqn:E.
  - rewrite orb_true_r. apply western_equivalent_ascii, E.
  - now rewrite orb_false_r.
Qed.

Lemma transliterate_never_eastern (c : codepoint) :
  is_eastern_glyph (transliterate c) = false.
Proof.
  unfold transliterate. destruct (is_eastern_glyph c) eqn:E; [|exact E].
  destruct (is_eastern_glyph (western_equivalent c)) eqn:E'; [|reflexivity].
  apply western_equivalent_ascii in E.
  apply eastern_glyph_not_ascii in E'. congruence.
Qed.

(** No whitespace character is a digit. *)
Lemma space_not_digit (c : codepoint) :
  isspace c = true -> isdigit c = false.
Proof.
  unfold isspace, in_ranges, space_ranges, in_range.
  cbn [existsb fst snd]. rewrite !orb_true_iff, !andb_true_iff, !N.leb_le.
  intros Hs. destruct (isdigit c) eqn:Ed; [|reflexivity]. exfalso.
  unfold isdigit, in_ranges in Ed. apply existsb_exists in Ed.
  destruct Ed as [[lo hi] [Hin Hr]].
  unfold in_range in Hr. cbn [fst snd] in Hr.
  apply andb_true_iff in Hr. rewrite !N.leb_le in Hr.
  unfold digit_ranges in Hin. cbn [In] in Hin.
  repeat (destruct Hin as [Hin|Hin];
          [injection Hin as <- <-; lia|]).
  exact Hin.
Qed.

(** Stripping a text does not change its digits. *)
Lemma filter_isdigit_lstrip (s : str) :
  filter_isdigit (lstrip s) = filter_isdigit s.
Proof.
  induction s as [|c s IH]; [reflexivity|].
  cbn [lstrip]. destruct (isspace c) eqn:E; [|reflexivity].
  unfold filter_isdigit in *. cbn [filter].
  now rewrite (space_not_digit c E).
Qed.

Lemma filter_isdigit_strip (s : str) :
  filter_isdigit (strip s) = filter_isdigit s.
Proof.
  unfold strip, rstrip.
  assert (Hrev : forall l : str, filter_isdigit (rev l) = rev (filter_isdigit l)).
  { intros l. unfold filter_isdigit. induction l as [|x l IH]; [reflexivity|].
    cbn [rev filter]. rewrite filter_app, IH. cbn [filter].
    destruct (isdigit x); [reflexivity|apply app_nil_r]. }
  rewrite Hrev, filter_isdigit_lstrip, Hrev, rev_involutive.
  apply filter_isdigit_lstrip.
Qed.

(** Every character of [s[:n]] is a character of [s]. *)
Lemma in_slice_to (n : nat) (s : str) (c : codepoint) :
  In c (slice_to n s) -> In c s.
Proof.
  unfold slice_to. intros H. rewrite <- (firstn_skipn n s).
  apply in_or_app. now left.
Qed.

End PyStrFacts.

(* ===================================================================== *)
(** ** The Digit Normalizer *)
(* ===================================================================== *)

Module NormalizerFacts.

Import Extractor Spec PyStrFacts.

Lemma western_digits_transliterate (text : str) :
  map (fun c => dict_get ARABIC_TO_WESTERN c c) text = map transliterate text.
Proof.
  apply map_ext. intros c. apply ARABIC_TO_WESTERN_get.
Qed.

(** The spec's samples, run on the code. *)
Example fallback_western_14 :
  manual_conversion_fallback western_14 = Some western_14.
Proof. reflexivity. Qed.

Example fallback_twenty_digits :
  manual_conversion_fallback (lit "12345678901234567890") = Some western_14.
Proof. reflexivity. Qed.

Example fallback_short :
  manual_conversion_fallback (lit "12345") = None.
Proof. reflexivity. Qed.

Example fallback_eastern_14 :
  manual_conversion_fallback eastern_14 = Some western_14.
Proof. reflexivity. Qed.

Example fallback_eastern_mixed :
  manual_conversion_fallback eastern_mixed = Some western_14.
Proof. reflexivity. Qed.

(** The result of the fallback always has 14 characters, all of them
    digits for [str.isdigit]. *)
Lemma fallback_shape (text id : str) :
  manual_conversion_fallback text = Some id ->
  len id = 14 /\ Forall (fun c => isdigit c = true) id.
Proof.
  unfold manual_conversion_fallback, slice_to, filter_isdigit, len.
  set (digits := filter isdigit _).
  destruct (Nat.leb_spec 14 (List.length digits)) as [Hlen|Hlen];
    [|discriminate].
  intros Heq. assert (id = firstn 14 digits) as -> by congruence. split.
  - rewrite length_firstn. lia.
  - apply Forall_forall. intros c Hc.
    apply (in_slice_to 14) in Hc.
    apply filter_In in Hc. exact (proj2 Hc).
Qed.

(** The fallback never returns an Eastern Arabic glyph. *)
Lemma fallback_no_eastern (text id : str) :
  manual_conversion_fallback text = Some id ->
  Forall (fun c => is_eastern_glyph c = false) id.
Proof.
  unfold manual_conversion_fallback, slice_to, filter_isdigit, len.
  rewrite western_digits_transliterate.
  set (digits := filter isdigit _).
  destruct (14 <=? List.length digits); [|discriminate].
  intros Heq. assert (id = firstn 14 digits) as -> by congruence.
  apply Forall_forall. intros c Hc.
  apply (in_slice_to 14) in Hc.
  apply filter_In in Hc. destruct Hc as [Hc _].
  apply in_map_iff in Hc. destruct Hc as [c0 [<- _]].
  apply transliterate_never_eastern.
Qed.

(** On a text whose only digits are ASCII digits and Eastern Arabic
    glyphs, the code does what the three steps say, with step (2)
    keeping the ASCII digits only. *)
Lemma fallback_spec_on_arabic_text (text : str) :
  Forall (fun c => isdigit c = true ->
                   is_ascii_digit c = true \/ is_eastern_glyph c = true) text ->
  manual_conversion_fallback text = spec_normalize text.
Proof.
  intros H. unfold manual_conversion_fallback, spec_normalize, normalize_with,
    slice_to, filter_isdigit, len.
  rewrite western_digits_transliterate.
  replace (filter isdigit (map transliterate text))
    with (filter is_ascii_digit (map transliterate text)); [reflexivity|].
  induction H as [|c text Hc _ IH]; [reflexivity|].
  cbn [map filter]. rewrite IH.
  rewrite isdigit_transliterate, is_ascii_digit_transliterate.
  destruct (isdigit c) eqn:Ed.
  - destruct (Hc eq_refl) as [-> | ->]; [reflexivity|].
    now rewrite orb_true_r.
  - destruct (is_ascii_digit c) eqn:Ea.
    + apply ascii_digit_isdigit in Ea. congruence.
    + destruct (is_eastern_glyph c) eqn:Ee; [|reflexivity].
      apply eastern_glyph_isdigit in Ee. congruence.
Qed.

(** C2, as stated, fails: fourteen Persian digits are digits for
    [str.isdigit] and are not in the table, so the code returns them,
    where the three steps as written give no result. *)
Lemma fallback_keeps_unicode_digits :
  manual_conversion_fallback persian_14 = Some persian_14 /\
  spec_normalize persian_14 = None /\
  manual_conversion_fallback persian_14 <> spec_normalize persian_14.
Proof.
  assert (Hcode : manual_conversion_fallback persian_14 = Some persian_14)
    by (vm_compute; reflexivity).
  assert (Hspec : spec_normalize persian_14 = None)
    by (vm_compute; reflexivity).
  rewrite Hcode, Hspec. repeat split. discriminate.
Qed.

(** C2, amended: for every input string, [manual_conversion_fallback]
    (1) replaces each of the ten Eastern Arabic glyphs with its Western
    equivalent and leaves every other character unchanged, (2) discards
    every remaining character that is not a digit for [str.isdigit]
    (Unicode Numeric_Type Digit or Decimal, which includes the ASCII
    digits), and (3) returns the first 14 characters of the result if
    there are at least 14, and no result otherwise. *)
Theorem fallback_is_normalize_isdigit (text : str) :
  manual_conversion_fallback text = normalize_with isdigit text.
Proof.
  unfold manual_conversion_fallback, normalize_with, slice_to,
    filter_isdigit, len.
  now rewrite western_digits_transliterate.
Qed.

Lemma filter_transliterate_eastern (text : str) :
  Forall (fun c => is_eastern_glyph c = true \/ isdigit c = false) text ->
  filter isdigit (map transliterate text)
  = map western_equivalent (filter is_eastern_glyph text).
Proof.
  induction 1 as [|c text Hc _ IH]; [reflexivity|].
  cbn [map filter]. rewrite IH, isdigit_transliterate.
  destruct Hc as [He | Hd].
  - rewrite He, (eastern_glyph_isdigit c He). cbn [map].
    unfold transliterate. now rewrite He.
  - rewrite Hd. destruct (is_eastern_glyph c) eqn:Ee; [|reflexivity].
    apply eastern_glyph_isdigit in Ee. congruence.
Qed.

(** A text is checked against the premise of the next theorem by
    computation. *)
Lemma arabic_text_check (text : str) :
  forallb (fun c => is_eastern_glyph c || negb (isdigit c)) text = true ->
  Forall (fun c => is_eastern_glyph c = true \/ isdigit c = false) text.
Proof.
  intros H. apply Forall_forall. intros c Hc.
  rewrite forallb_forall in H. specialize (H c Hc).
  apply orb_true_iff in H. destruct H as [H|H]; [now left|right].
  now apply negb_true_iff.
Qed.

(** C9: on a string made of Eastern Arabic glyphs and characters that
    are not digits, with exactly 14 glyphs, the Digit Normalizer yields
    the Western transliteration of the glyphs, in order: 14 ASCII
    digits. *)
Theorem fallback_transliterates_eastern (text : str) :
  Forall (fun c => is_eastern_glyph c = true \/ isdigit c = false) text ->
  List.length (filter is_eastern_glyph text) = 14 ->
  manual_conversion_fallback text
  = Some (map western_equivalent (filter is_eastern_glyph text))
  /\ is_national_id (map western_equivalent (filter is_eastern_glyph text)).
Proof.
  intros Hall Hlen. split.
  - unfold manual_conversion_fallback, slice_to, filter_isdigit, len.
    rewrite western_digits_transliterate.
    rewrite (filter_transliterate_eastern Hall), length_map, Hlen.
    cbn [Nat.leb]. f_equal. apply firstn_all2.
    rewrite length_map, Hlen. lia.
  - split.
    + unfold len. now rewrite length_map.
    + apply Forall_forall. intros d Hd.
      apply in_map_iff in Hd. destruct Hd as [c [<- Hc]].
      apply filter_In in Hc. apply western_equivalent_ascii, Hc.
Qed.

(** The two samples of the claim, obtained from the theorem. *)
Lemma fallback_transliterates_eastern_samples :
  manual_conversion_fallback eastern_14 = Some western_14 /\
  manual_conversion_fallback eastern_mixed = Some western_14.
Proof.
  split.
  - refine (proj1 (@fallback_transliterates_eastern eastern_14 _ _)).
    + apply arabic_text_check. vm_compute. reflexivity.
    + vm_compute. reflexivity.
  - refine (proj1 (@fallback_transliterates_eastern eastern_mixed _ _)).
    + apply arabic_text_check. vm_compute. reflexivity.
    + vm_compute. reflexivity.
Defined.

End NormalizerFacts.

(* ===================================================================== *)
(** ** One attempt *)
(* ===================================================================== *)

Module AttemptFacts.

Import Json Extractor Spec PyStrFacts NormalizerFacts.

Local Open Scope py_scope.

Ltac run_monad :=
  cbv beta iota zeta
    delta [bind ret raise or_raise print emit sleep try_except
           requests_post raise_for_status response_json
           attempt_body attempt_handler fst snd posts trace].

(** One iteration of the loop, whatever the service replies: the attempt
    is announced, one POST is issued, and what follows is decided by
    [outcome_of] alone. *)
Lemma attempt_step (net : nat -> reply) (url : str) (payload : json)
    (attempt : nat) (w : world) :
  try_except (attempt_body net url payload attempt) (attempt_handler attempt) w
  = (inr (flow_of attempt (outcome_of (net (posts w)))),
     {| posts := S (posts w);
        trace := trace w
                 ++ Print (AttemptingCall (attempt + 1) max_retries)
                 :: Post url payload
                 :: events_of attempt (outcome_of (net (posts w))) |}).
Proof.
  destruct w as [p t]. cbn [posts trace].
  unfold outcome_of, is_error_status, first_text, obind, flow_of, events_of.
  run_monad.
  destruct (net p) as [|status_code body]; run_monad.
  - rewrite <- !app_assoc. reflexivity.
  - destruct ((400 <=? status_code)%N && (status_code <? 600)%N); run_monad.
    + destruct (retryable status_code && (attempt <? max_retries - 1));
        run_monad; rewrite <- !app_assoc; reflexivity.
    + destruct body as [result|]; run_monad;
        [|rewrite <- !app_assoc; reflexivity].
      destruct (get result (lit "candidates")) as [candidates|]; run_monad;
        [|rewrite <- !app_assoc; reflexivity].
      destruct (truthy candidates); run_monad;
        [|rewrite <- !app_assoc; reflexivity].
      repeat match goal with
             | |- context [match ?o with Some _ => _ | None => _ end] =>
                 destruct o; run_monad;
                 [|rewrite <- !app_assoc; reflexivity]
             end.
      destruct (len (filter_isdigit s) =? 14); run_monad;
        rewrite <- !app_assoc; reflexivity.
Qed.

(** The world an attempt leaves behind. *)
Lemma attempts_loop_cons (net : nat -> reply) (url : str) (payload : json)
    (attempt : nat) (rest : list nat) (w : world) :
  attempts_loop net url payload (attempt :: rest) w
  = let o := outcome_of (net (posts w)) in
    let w' := {| posts := S (posts w);
                 trace := trace w
                          ++ Print (AttemptingCall (attempt + 1) max_retries)
                          :: Post url payload
                          :: events_of attempt o |} in
    match flow_of attempt o with
    | Return v => (inr v, w')
    | Next => attempts_loop net url payload rest w'
    end.
Proof.
  cbn [attempts_loop]. unfold bind at 1. rewrite attempt_step.
  cbv zeta. destruct (flow_of attempt (outcome_of (net (posts w))));
    reflexivity.
Qed.

Lemma attempts_loop_nil (net : nat -> reply) (url : str) (payload : json)
    (w : world) :
  attempts_loop net url payload [] w
  = (inr None,
     {| posts := posts w; trace := trace w ++ [Print FailedAfterRetries] |}).
Proof. reflexivity. Qed.

(** The statuses that are retried are error statuses. *)
Lemma retryable_is_error (status_code : N) :
  retryable status_code = true -> is_error_status status_code = true.
Proof.
  unfold retryable. cbn [existsb]. rewrite !orb_true_iff, !N.eqb_eq.
  intros [-> | [-> | [-> | H]]]; try reflexivity. discriminate.
Qed.

Lemma fails_retryably_outcome (r : reply) :
  fails_retryably r ->
  exists status_code,
    outcome_of r = HttpFailure status_code /\ retryable status_code = true.
Proof.
  intros [status_code [body [-> Hr]]]. exists status_code. split; [|exact Hr].
  unfold outcome_of. now rewrite (retryable_is_error _ Hr).
Qed.

(** An attempt that fails for good returns no result and ends with a
    single message, whatever its index. *)
Lemma fails_for_good_flow (r : reply) (attempt : nat) :
  fails_for_good r ->
  flow_of attempt (outcome_of r) = Return None
  /\ exists m, events_of attempt (outcome_of r) = [Print m].
Proof.
  unfold fails_for_good. destruct (outcome_of r) as [text| |status_code|];
    cbn [flow_of events_of]; intros H.
  - contradiction.
  - split; [reflexivity|]. now eexists.
  - rewrite H. cbn [andb]. split; [reflexivity|]. now eexists.
  - split; [reflexivity|]. now eexists.
Qed.

(** The last index of the loop is never retried. *)
Lemma last_attempt_returns (o : outcome) :
  exists v, flow_of (max_retries - 1) o = Return v.
Proof.
  destruct o as [text| |status_code|]; cbn [flow_of].
  - destruct (len (filter_isdigit text) =? 14); now eexists.
  - now eexists.
  - rewrite Nat.ltb_irrefl, andb_false_r. now eexists.
  - now eexists.
Qed.

Lemma flow_of_shape (attempt : nat) (o : outcome) (id : str) :
  flow_of attempt o = Return (Some id) ->
  len id = 14 /\ Forall (fun c => isdigit c = true) id.
Proof.
  destruct o as [text| |status_code|]; cbn [flow_of].
  - destruct (Nat.eqb_spec (len (filter_isdigit text)) 14) as [Hlen|Hlen].
    + intros Heq. assert (id = filter_isdigit text) as -> by congruence.
      split; [exact Hlen|]. apply Forall_forall. intros c Hc.
      apply filter_In in Hc. exact (proj2 Hc).
    + intros Heq. apply fallback_shape with (text := text). congruence.
  - discriminate.
  - destruct (retryable status_code && (attempt <? max_retries - 1));
      discriminate.
  - discriminate.
Qed.

Lemma events_of_no_exhaustion (attempt : nat) (o : outcome) :
  ~ In (Print FailedAfterRetries) (events_of attempt o).
Proof.
  destruct o as [text| |status_code|]; cbn [events_of].
  - destruct (len (filter_isdigit text) =? 14); intros [H|[]]; discriminate.
  - intros [H|[]]; discriminate.
  - destruct (retryable status_code && (attempt <? max_retries - 1));
      cbn [In]; intros H; decompose [or] H; try discriminate; assumption.
  - intros [H|[]]; discriminate.
Qed.

End AttemptFacts.

(* ===================================================================== *)
(** ** The retry loop *)
(* ===================================================================== *)

Module LoopFacts.

Import Base64 Json Extractor Spec PyStrFacts NormalizerFacts AttemptFacts.

Section Loop.

Variable net : nat -> reply.
Variable url : str.
Variable payload : json.

Lemma network_activity_app (t1 t2 : list event) :
  network_activity (t1 ++ t2) = network_activity t1 ++ network_activity t2.
Proof. apply filter_app. Qed.

(** As long as the attempts fail retryably and the last index is not
    reached, the loop goes on: [k] attempts leave [k] POSTs, each
    followed by its delay. *)
Lemma retry_prefix (k : nat) :
  forall (a : nat) (rest : list nat) (w : world),
    a + k <= max_retries - 1 ->
    (forall j, j < k -> fails_retryably (net (posts w + j))) ->
    exists w',
      attempts_loop net url payload (seq a k ++ rest) w
      = attempts_loop net url payload rest w'
      /\ posts w' = posts w + k
      /\ network_activity (trace w')
         = network_activity (trace w)
           ++ flat_map (retried url payload) (seq a k)
      /\ reports_exhaustion (trace w') = reports_exhaustion (trace w).
Proof.
  induction k as [|k IH]; intros a rest w Hbound Hfail.
  - exists w. cbn [seq app flat_map]. rewrite Nat.add_0_r, app_nil_r.
    repeat split.
  - cbn [seq app]. rewrite attempts_loop_cons. cbv zeta.
    destruct (fails_retryably_outcome (Hfail 0 (Nat.lt_0_succ k)))
      as [status_code [Ho Hr]].
    rewrite Nat.add_0_r in Ho. rewrite Ho. cbn [flow_of events_of].
    assert (Hlt : (a <? max_retries - 1) = true) by (apply Nat.ltb_lt; lia).
    rewrite Hr, Hlt. cbn [andb].
    match goal with
    | |- context [attempts_loop _ _ _ _ ?w1] =>
        destruct (IH (S a) rest w1) as [w' [Heq [Hp [Hn Hx]]]]
    end.
    + lia.
    + intros j Hj. cbn [posts].
      replace (S (posts w) + j) with (posts w + S j) by lia.
      apply Hfail. lia.
    + exists w'. split; [exact Heq|]. cbn [posts trace] in Hp, Hn, Hx.
      split; [lia|]. split.
      * rewrite Hn, network_activity_app. cbn [flat_map].
        rewrite <- app_assoc. reflexivity.
      * rewrite Hx. unfold reports_exhaustion.
        rewrite existsb_app. cbn. apply orb_false_r.
Qed.

(** The message of line 108 is printed only when the loop runs out of
    indices, and the last index, [max_retries - 1], always returns. *)
Lemma loop_never_reports_exhaustion (pre : list nat) :
  forall w,
    reports_exhaustion (trace w) = false ->
    reports_exhaustion
      (trace (snd (attempts_loop net url payload (pre ++ [max_retries - 1]) w)))
    = false.
Proof.
  assert (Hstep : forall attempt w,
    reports_exhaustion (trace w) = false ->
    reports_exhaustion
      (trace w ++ Print (AttemptingCall (attempt + 1) max_retries)
               :: Post url payload
               :: events_of attempt (outcome_of (net (posts w)))) = false).
  { intros attempt w Hw. unfold reports_exhaustion in *.
    rewrite existsb_app, Hw. cbn [orb existsb is_exhaustion_message].
    destruct (existsb is_exhaustion_message
                (events_of attempt (outcome_of (net (posts w))))) eqn:E;
      [|reflexivity].
    apply existsb_exists in E. destruct E as [e [Hin He]].
    destruct e as [m| | |]; try discriminate.
    destruct m; try discriminate.
    now apply events_of_no_exhaustion in Hin. }
  induction pre as [|a pre IH]; intros w Hw.
  - cbn [app]. rewrite attempts_loop_cons. cbv zeta.
    destruct (last_attempt_returns (outcome_of (net (posts w)))) as [v ->].
    cbn [snd trace]. now apply Hstep.
  - cbn [app]. rewrite attempts_loop_cons. cbv zeta.
    destruct (flow_of a (outcome_of (net (posts w)))).
    + cbn [snd trace]. now apply Hstep.
    + apply IH. cbn [trace]. now apply Hstep.
Qed.

(** Whatever the loop returns is 14 characters long and made of
    [str.isdigit] digits. *)
Lemma loop_result_shape (attempts : list nat) :
  forall (w : world) (id : str),
    fst (attempts_loop net url payload attempts w) = inr (Some id) ->
    len id = 14 /\ Forall (fun c => isdigit c = true) id.
Proof.
  induction attempts as [|a attempts IH]; intros w id.
  - rewrite attempts_loop_nil. discriminate.
  - rewrite attempts_loop_cons. cbv zeta.
    destruct (flow_of a (outcome_of (net (posts w)))) as [v|] eqn:E.
    + cbn [fst]. intros Heq. apply flow_of_shape with (attempt := a)
        (o := outcome_of (net (posts w))). congruence.
    + apply IH.
Qed.

End Loop.

End LoopFacts.

(* ===================================================================== *)
(** ** The pipeline *)
(* ===================================================================== *)

Module PipelineFacts.

Import Base64 Json Extractor Spec PyStrFacts NormalizerFacts AttemptFacts
  LoopFacts.

Lemma str_eqb_refl (s : str) : str_eqb s s = true.
Proof.
  induction s as [|c s IH]; [reflexivity|].
  cbn [str_eqb]. now rewrite N.eqb_refl, IH.
Qed.

(** Only the empty byte string encodes to the empty string. *)
Lemma b64encode_empty_iff (data : bytes) : b64encode data = [] <-> data = [].
Proof.
  destruct data as [|a [|b [|c rest]]]; cbn [b64encode];
    split; intros H; try discriminate; reflexivity.
Qed.

Section Pipeline.

Variable environ_GEMINI_API_KEY : option str.
Variable fs : str -> file.
Variable net : nat -> reply.

Abbreviation extract := (extract_id_from_image environ_GEMINI_API_KEY fs net).
Abbreviation url := (API_URL_TEMPLATE_format MODEL_NAME (API_KEY environ_GEMINI_API_KEY)).

Lemma image_to_base64_contents (filepath : str) (data : bytes) (w : world) :
  fs filepath = Contents data ->
  image_to_base64 fs filepath w
  = (inr (Some (b64encode data)), loading filepath w).
Proof.
  intros H. unfold image_to_base64, open_read, print, emit, bind, try_except,
    ret, loading. now rewrite H.
Qed.

Lemma image_to_base64_failure (filepath : str) (w : world) :
  (forall data, fs filepath <> Contents data) ->
  image_to_base64 fs filepath w
  = (inr None,
     {| posts := posts w;
        trace := trace w
                 ++ [Print (LoadingImage filepath);
                     Print (match fs filepath with
                            | Absent => ImageNotFound filepath
                            | _ => ImageReadError
                            end)] |}).
Proof.
  intros H. unfold image_to_base64, open_read, print, emit, bind, try_except,
    ret, raise.
  destruct (fs filepath) as [| |data] eqn:E; cbn [posts trace];
    rewrite <- ?app_assoc; try reflexivity.
  now destruct (H data).
Qed.

(** With a readable, non-empty image the function is its loop. *)
Lemma extract_readable (image_path : str) (data : bytes) (w : world) :
  fs image_path = Contents data ->
  data <> [] ->
  extract image_path w
  = attempts_loop net url (build_payload (b64encode data))
      (range max_retries) (loading image_path w).
Proof.
  intros Hfs Hdata. unfold extract_id_from_image. unfold bind at 1.
  rewrite (image_to_base64_contents w Hfs). unfold falsy.
  destruct (b64encode data) as [|c s] eqn:E; [|reflexivity].
  exfalso. apply Hdata. apply (proj1 (b64encode_empty_iff data)). exact E.
Qed.

(** Otherwise it returns no result before anything is sent. *)
Lemma extract_unloaded (image_path : str) (w : world) :
  (forall data, fs image_path = Contents data -> data = []) ->
  exists w',
    extract image_path w = (inr None, w')
    /\ snd (image_to_base64 fs image_path w) = w'
    /\ posts w' = posts w
    /\ network_activity (trace w') = network_activity (trace w)
    /\ reports_exhaustion (trace w') = reports_exhaustion (trace w).
Proof.
  intros H. unfold extract_id_from_image. unfold bind at 1.
  destruct (fs image_path) as [| |data] eqn:E.
  - rewrite image_to_base64_failure by (intros d; congruence).
    eexists. split; [reflexivity|]. split; [reflexivity|].
    cbn [posts trace]. split; [reflexivity|].
    rewrite network_activity_app. unfold reports_exhaustion.
    rewrite existsb_app, E. cbn. now rewrite app_nil_r, orb_false_r.
  - rewrite image_to_base64_failure by (intros d; congruence).
    eexists. split; [reflexivity|]. split; [reflexivity|].
    cbn [posts trace]. split; [reflexivity|].
    rewrite network_activity_app. unfold reports_exhaustion.
    rewrite existsb_app, E. cbn. now rewrite app_nil_r, orb_false_r.
  - rewrite (image_to_base64_contents w E), (H data eq_refl).
    eexists. split; [reflexivity|]. split; [reflexivity|].
    cbn [loading posts trace]. split; [reflexivity|].
    rewrite network_activity_app. unfold reports_exhaustion.
    rewrite existsb_app. cbn. now rewrite app_nil_r, orb_false_r.
Qed.

End Pipeline.

(** The response shape of the service contract is read as its stripped
    text, whatever the (non-error) status. *)
Lemma outcome_of_candidate_response (status_code : N) (raw : str) :
  is_error_status status_code = false ->
  outcome_of (Response status_code (Some (candidate_response raw)))
  = Text (strip raw).
Proof.
  intros H. unfold outcome_of. rewrite H.
  assert (Hc : str_eqb (lit "candidates") (lit "candidates") = true)
    by apply str_eqb_refl.
  assert (Hn : str_eqb (lit "content") (lit "content") = true)
    by apply str_eqb_refl.
  assert (Hp : str_eqb (lit "parts") (lit "parts") = true)
    by apply str_eqb_refl.
  assert (Ht : str_eqb (lit "text") (lit "text") = true)
    by apply str_eqb_refl.
  unfold candidate_response, first_text, obind, get, getitem_key, getitem_0,
    strip_method, lookup, truthy.
  rewrite Hc. cbn [List.length Nat.eqb negb]. now rewrite Hn, Hp, Ht.
Qed.

(** C1, amended: whatever the image and the service, a result of
    [extract_id_from_image] (direct or through the fallback) is a string
    of exactly 14 characters, each of them a digit for [str.isdigit];
    no shorter or longer string is returned. *)
Theorem extracted_id_shape (environ_GEMINI_API_KEY : option str)
    (fs : str -> file) (net : nat -> reply) (image_path : str) (w : world)
    (id : str) :
  fst (extract_id_from_image environ_GEMINI_API_KEY fs net image_path w)
  = inr (Some id) ->
  len id = 14 /\ Forall (fun c => isdigit c = true) id.
Proof.
  destruct (fs image_path) as [| |[|b data]] eqn:E.
  1-3: destruct (@extract_unloaded environ_GEMINI_API_KEY fs net image_path w)
         as [w' [-> _]];
       [intros d Hd; congruence | discriminate].
  rewrite (@extract_readable environ_GEMINI_API_KEY fs net image_path
             (b :: data) w E) by discriminate.
  apply loop_result_shape.
Qed.

Lemma extracted_id_shape_sample :
  fst (extract_id_from_image sample_key sample_fs
         (always_text (lit " 29001011234567 ")) sample_path start)
  = inr (Some (lit "29001011234567"))
  /\ len (lit "29001011234567") = 14
  /\ Forall (fun c => isdigit c = true) (lit "29001011234567").
Proof.
  assert (H : fst (extract_id_from_image sample_key sample_fs
                     (always_text (lit " 29001011234567 ")) sample_path start)
              = inr (Some (lit "29001011234567")))
    by (vm_compute; reflexivity).
  split; [exact H|].
  exact (@extracted_id_shape sample_key sample_fs
           (always_text (lit " 29001011234567 ")) sample_path start
           (lit "29001011234567") H).
Defined.

(** C1, as stated, fails: fourteen Persian digits are digits for
    [str.isdigit] and are in no table of the program, so when the
    service answers with them the function returns them, and they are
    not ASCII digits. *)
Lemma extracted_id_not_ascii :
  fst (extract_id_from_image sample_key sample_fs (always_text persian_14)
         sample_path start)
  = inr (Some persian_14)
  /\ ~ is_national_id persian_14.
Proof.
  split; [vm_compute; reflexivity|].
  intros [_ H].
  assert (Hb : forallb is_ascii_digit persian_14 = true).
  { apply forallb_forall. intros c Hc.
    exact (proj1 (Forall_forall _ _) H c Hc). }
  vm_compute in Hb. discriminate.
Qed.

(** The same happens with the glyphs the program does know: an answer
    with exactly fourteen Eastern Arabic glyphs, alone or among other
    characters, takes the direct path, which does not convert them. *)
Example direct_path_keeps_eastern :
  fst (extract_id_from_image sample_key sample_fs (always_text eastern_14)
         sample_path start)
  = inr (Some eastern_14)
  /\ fst (extract_id_from_image sample_key sample_fs
            (always_text eastern_mixed) sample_path start)
     = inr (Some eastern_14).
Proof. split; vm_compute; reflexivity. Qed.

(** C4: when every attempt fails with 429, 500 or 503, the function
    issues exactly five POSTs, sleeps 1, 2, 4 and 8 seconds after the
    first four and not after the fifth, and returns no result. *)
Theorem retry_bound (environ_GEMINI_API_KEY : option str)
    (fs : str -> file) (net : nat -> reply) (image_path : str)
    (data : bytes) (w : world) :
  fs image_path = Contents data ->
  data <> [] ->
  (forall j, fails_retryably (net (posts w + j))) ->
  let url := API_URL_TEMPLATE_format MODEL_NAME (API_KEY environ_GEMINI_API_KEY) in
  let payload := build_payload (b64encode data) in
  let r := extract_id_from_image environ_GEMINI_API_KEY fs net image_path w in
  fst r = inr None
  /\ posts (snd r) = posts w + 5
  /\ network_activity (trace (snd r))
     = network_activity (trace w)
       ++ [ Post url payload; Sleep 1;
            Post url payload; Sleep 2;
            Post url payload; Sleep 4;
            Post url payload; Sleep 8;
            Post url payload ].
Proof.
  intros Hfs Hdata Hfail url payload r. subst r.
  rewrite (@extract_readable environ_GEMINI_API_KEY fs net image_path data w
             Hfs Hdata).
  fold url payload. change (range max_retries) with (seq 0 4 ++ [4]).
  destruct (@retry_prefix net url payload 4 0 [4] (loading image_path w))
    as [w' [-> [Hp [Hn _]]]].
  - unfold max_retries. lia.
  - intros j _. apply Hfail.
  - cbn [loading posts trace] in Hp, Hn.
    rewrite attempts_loop_cons. cbv zeta. rewrite Hp.
    destruct (fails_retryably_outcome (Hfail 4)) as [status_code [-> Hr]].
    cbn [flow_of events_of]. change (4 <? max_retries - 1) with false.
    rewrite andb_false_r. cbn [fst snd posts trace].
    split; [reflexivity|]. split; [lia|].
    rewrite network_activity_app, Hn, network_activity_app.
    cbn. rewrite app_nil_r, <- app_assoc. reflexivity.
Qed.

Lemma retry_bound_always_503 :
  let url := API_URL_TEMPLATE_format MODEL_NAME (API_KEY sample_key) in
  let payload := build_payload (b64encode [255; 216; 255; 224]%N) in
  let r := extract_id_from_image sample_key sample_fs (always_status 503)
             sample_path start in
  fst r = inr None
  /\ posts (snd r) = 5
  /\ network_activity (trace (snd r))
     = [ Post url payload; Sleep 1;
         Post url payload; Sleep 2;
         Post url payload; Sleep 4;
         Post url payload; Sleep 8;
         Post url payload ].
Proof.
  refine (@retry_bound sample_key sample_fs (always_status 503) sample_path
            [255; 216; 255; 224]%N start _ _ _).
  - vm_compute. reflexivity.
  - discriminate.
  - intros j. exists 503%N, None. split; reflexivity.
Defined.

(** Where the list of attempts splits at index [k]. *)
Lemma range_split (k : nat) :
  k < max_retries ->
  range max_retries = seq 0 k ++ k :: seq (S k) (max_retries - 1 - k).
Proof.
  intros Hk. unfold range.
  replace max_retries with (k + S (max_retries - 1 - k)) at 1
    by (unfold max_retries in *; lia).
  rewrite seq_app. reflexivity.
Qed.

(** C5: when attempt [k] is the first to fail otherwise than with 429,
    500 or 503 (another HTTP error status, an exception that is not an
    HTTP error, or a response without candidates), the function returns
    no result there and then: the POST of attempt [k] is the last thing
    it does on the network, and no delay follows it. *)
Theorem no_retry_on_permanent_failure (environ_GEMINI_API_KEY : option str)
    (fs : str -> file) (net : nat -> reply) (image_path : str)
    (data : bytes) (w : world) (k : nat) :
  fs image_path = Contents data ->
  data <> [] ->
  k < max_retries ->
  (forall j, j < k -> fails_retryably (net (posts w + j))) ->
  fails_for_good (net (posts w + k)) ->
  let url := API_URL_TEMPLATE_format MODEL_NAME (API_KEY environ_GEMINI_API_KEY) in
  let payload := build_payload (b64encode data) in
  let r := extract_id_from_image environ_GEMINI_API_KEY fs net image_path w in
  fst r = inr None
  /\ posts (snd r) = posts w + k + 1
  /\ network_activity (trace (snd r))
     = network_activity (trace w)
       ++ flat_map (retried url payload) (seq 0 k)
       ++ [Post url payload].
Proof.
  intros Hfs Hdata Hk Hfail Hgood url payload r. subst r.
  rewrite (@extract_readable environ_GEMINI_API_KEY fs net image_path data w
             Hfs Hdata).
  fold url payload. rewrite (range_split Hk).
  destruct (@retry_prefix net url payload k 0
              (k :: seq (S k) (max_retries - 1 - k)) (loading image_path w))
    as [w' [-> [Hp [Hn _]]]].
  - unfold max_retries in *. lia.
  - exact Hfail.
  - cbn [loading posts trace] in Hp, Hn.
    rewrite attempts_loop_cons. cbv zeta. rewrite Hp.
    destruct (@fails_for_good_flow (net (posts w + k)) k Hgood) as [-> [m ->]].
    cbn [fst snd posts trace].
    split; [reflexivity|]. split; [lia|].
    rewrite network_activity_app, Hn, network_activity_app.
    cbn. rewrite app_nil_r, <- app_assoc. reflexivity.
Qed.

(** The spec's sample, a service that always answers 400: one POST. *)
Lemma no_retry_on_400 :
  let url := API_URL_TEMPLATE_format MODEL_NAME (API_KEY sample_key) in
  let payload := build_payload (b64encode [255; 216; 255; 224]%N) in
  let r := extract_id_from_image sample_key sample_fs (always_status 400)
             sample_path start in
  fst r = inr None
  /\ posts (snd r) = 1
  /\ network_activity (trace (snd r)) = [Post url payload].
Proof.
  refine (@no_retry_on_permanent_failure sample_key sample_fs
            (always_status 400) sample_path [255; 216; 255; 224]%N start 0
            _ _ _ _ _).
  - vm_compute. reflexivity.
  - discriminate.
  - unfold max_retries. lia.
  - intros j Hj. lia.
  - vm_compute. reflexivity.
Defined.

(** C6: the code never prints the message of line 108.  Whatever the
    image and the service, a run of [extract_id_from_image] does not
    report exhaustion; with a service that always answers 503 the five
    attempts are used and the last thing printed is the HTTP error of
    attempt 5, the message a single hard failure also ends with. *)
Theorem exhaustion_never_reported :
  (forall (environ_GEMINI_API_KEY : option str) (fs : str -> file)
          (net : nat -> reply) (image_path : str),
      reports_exhaustion
        (trace (snd (extract_id_from_image environ_GEMINI_API_KEY fs net
                       image_path start)))
      = false)
  /\ printed
       (trace (snd (extract_id_from_image sample_key sample_fs
                      (always_status 503) sample_path start)))
     = [ LoadingImage sample_path;
         AttemptingCall 1 5; HTTPErrorMsg 503; RetryingIn 1;
         AttemptingCall 2 5; HTTPErrorMsg 503; RetryingIn 2;
         AttemptingCall 3 5; HTTPErrorMsg 503; RetryingIn 4;
         AttemptingCall 4 5; HTTPErrorMsg 503; RetryingIn 8;
         AttemptingCall 5 5; HTTPErrorMsg 503 ]
  /\ printed
       (trace (snd (extract_id_from_image sample_key sample_fs
                      (always_status 400) sample_path start)))
     = [ LoadingImage sample_path;
         AttemptingCall 1 5; HTTPErrorMsg 400 ].
Proof.
  split; [|split; vm_compute; reflexivity].
  intros env fs net image_path.
  destruct (fs image_path) as [| |[|b data]] eqn:E.
  1-3: destruct (@extract_unloaded env fs net image_path start)
         as [w' [-> [_ [_ [_ Hx]]]]];
       [intros d Hd; congruence | exact Hx].
  rewrite (@extract_readable env fs net image_path (b :: data) start E)
    by discriminate.
  change (range max_retries) with ([0; 1; 2; 3] ++ [max_retries - 1]).
  apply loop_never_reports_exhaustion. reflexivity.
Qed.

(** C7: when the image file is absent or cannot be read,
    [image_to_base64] returns no result after its two messages, and
    [extract_id_from_image] returns no result in the same world: nothing
    is posted. *)
Theorem missing_file_no_network (environ_GEMINI_API_KEY : option str)
    (fs : str -> file) (net : nat -> reply) (image_path : str) (w : world) :
  fs image_path = Absent \/ fs image_path = Unreadable ->
  let w' :=
    {| posts := posts w;
       trace := trace w
                ++ [ Print (LoadingImage image_path);
                     Print (match fs image_path with
                            | Absent => ImageNotFound image_path
                            | _ => ImageReadError
                            end) ] |} in
  image_to_base64 fs image_path w = (inr None, w')
  /\ extract_id_from_image environ_GEMINI_API_KEY fs net image_path w
     = (inr None, w').
Proof.
  intros H w'.
  assert (Hno : forall data, fs image_path <> Contents data)
    by (intros data; destruct H as [H|H]; rewrite H; discriminate).
  assert (Himg : image_to_base64 fs image_path w = (inr None, w'))
    by exact (@image_to_base64_failure fs image_path w Hno).
  split; [exact Himg|].
  unfold extract_id_from_image. unfold bind at 1. now rewrite Himg.
Qed.

Lemma missing_file_sample :
  let w' :=
    {| posts := 0;
       trace := [ Print (LoadingImage (lit "/nowhere.jpg"));
                  Print (ImageNotFound (lit "/nowhere.jpg")) ] |} in
  image_to_base64 sample_fs (lit "/nowhere.jpg") start = (inr None, w')
  /\ extract_id_from_image sample_key sample_fs (always_text western_14)
       (lit "/nowhere.jpg") start
     = (inr None, w').
Proof.
  refine (@missing_file_no_network sample_key sample_fs
            (always_text western_14) (lit "/nowhere.jpg") start _).
  left. vm_compute. reflexivity.
Defined.

(** C8: when [GEMINI_API_KEY] is unset or holds the placeholder, the
    program prints the configuration error and does nothing else:
    nothing is read from the prompt, no extraction starts, nothing is
    posted. *)
Theorem configuration_gate (environ_GEMINI_API_KEY stdin : option str)
    (fs : str -> file) (net : nat -> reply) (w : world) :
  environ_GEMINI_API_KEY = None
  \/ environ_GEMINI_API_KEY = Some PLACEHOLDER ->
  main environ_GEMINI_API_KEY stdin fs net w
  = (inr tt,
     {| posts := posts w;
        trace := trace w ++ [Print ConfigurationError] |}).
Proof.
  intros H. unfold main.
  assert (Hkey : API_KEY environ_GEMINI_API_KEY = PLACEHOLDER)
    by (destruct H as [-> | ->]; reflexivity).
  rewrite Hkey, str_eqb_refl. reflexivity.
Qed.

Lemma configuration_gate_unset :
  main None (Some sample_path) sample_fs (always_text western_14) start
  = (inr tt, {| posts := 0; trace := [Print ConfigurationError] |}).
Proof.
  refine (@configuration_gate None (Some sample_path) sample_fs
            (always_text western_14) start _).
  left. reflexivity.
Defined.

(** C10: an existing, empty file is loaded as the empty string, which
    [extract_id_from_image] takes for a failed load: it returns no
    result right after the loader's message, and nothing is posted. *)
Theorem empty_file_no_network (environ_GEMINI_API_KEY : option str)
    (fs : str -> file) (net : nat -> reply) (image_path : str) (w : world) :
  fs image_path = Contents [] ->
  image_to_base64 fs image_path w = (inr (Some []), loading image_path w)
  /\ extract_id_from_image environ_GEMINI_API_KEY fs net image_path w
     = (inr None, loading image_path w).
Proof.
  intros H.
  assert (Himg : image_to_base64 fs image_path w
                 = (inr (Some []), loading image_path w))
    by exact (@image_to_base64_contents fs image_path [] w H).
  split; [exact Himg|].
  unfold extract_id_from_image. unfold bind at 1. now rewrite Himg.
Qed.

Lemma empty_file_sample :
  image_to_base64 sample_fs (lit "/tmp/empty.jpg") start
  = (inr (Some []), loading (lit "/tmp/empty.jpg") start)
  /\ extract_id_from_image sample_key sample_fs (always_text western_14)
       (lit "/tmp/empty.jpg") start
     = (inr None, loading (lit "/tmp/empty.jpg") start).
Proof.
  refine (@empty_file_no_network sample_key sample_fs
            (always_text western_14) (lit "/tmp/empty.jpg") start _).
  vm_compute. reflexivity.
Defined.

Lemma digits_of_filter (text : str) : digits_of text = filter_isdigit text.
Proof.
  induction text as [|c text IH]; [reflexivity|].
  cbn [digits_of]. unfold filter_isdigit in *. cbn [filter].
  now rewrite IH.
Qed.

(** Filtering the digits keeps every Eastern Arabic glyph of a text. *)
Lemma digits_of_keeps_eastern (text : str) :
  filter is_eastern_glyph (digits_of text) = filter is_eastern_glyph text.
Proof.
  induction text as [|c text IH]; [reflexivity|].
  cbn [digits_of filter]. destruct (isdigit c) eqn:Ed.
  - cbn [filter]. now rewrite IH.
  - destruct (is_eastern_glyph c) eqn:Ee; [|exact IH].
    apply eastern_glyph_isdigit in Ee. congruence.
Qed.

Import Observations.

(** C3: whatever attempt brings the answer (after any number of retried
    failures), with [text] the stripped text of its candidate: if the
    digit-filtered content of [text] has exactly 14 characters, the
    function returns that content as it stands in the text, so that
    every Eastern Arabic glyph of the text is in the result,
    unconverted; if it has not, the function returns
    [manual_conversion_fallback text], which is the text with its
    Eastern glyphs converted, then filtered, then cut to 14. *)
Theorem direct_or_fallback (environ_GEMINI_API_KEY : option str)
    (fs : str -> file) (net : nat -> reply) (image_path : str)
    (data : bytes) (w : world) (k : nat) (text : str) :
  fs image_path = Contents data ->
  data <> [] ->
  k < max_retries ->
  (forall j, j < k -> fails_retryably (net (posts w + j))) ->
  outcome_of (net (posts w + k)) = Text text ->
  let result :=
    fst (extract_id_from_image environ_GEMINI_API_KEY fs net image_path w) in
  (List.length (digits_of text) = 14 ->
   result = inr (Some (digits_of text))
   /\ filter is_eastern_glyph (digits_of text)
      = filter is_eastern_glyph text)
  /\ (List.length (digits_of text) <> 14 ->
      result = inr (manual_conversion_fallback text)
      /\ manual_conversion_fallback text = normalize_with isdigit text).
Proof.
  intros Hfs Hdata Hk Hfail Ho result. subst result.
  rewrite (@extract_readable environ_GEMINI_API_KEY fs net image_path data w
             Hfs Hdata).
  rewrite (range_split Hk).
  match goal with
  | |- context [attempts_loop ?n ?u ?p _ ?w1] =>
      destruct (@retry_prefix n u p k 0
                  (k :: seq (S k) (max_retries - 1 - k)) w1)
        as [w' [-> [Hp _]]]
  end.
  - unfold max_retries in *. lia.
  - exact Hfail.
  - cbn [loading posts] in Hp.
    rewrite attempts_loop_cons. cbv zeta. rewrite Hp, Ho.
    cbn [flow_of]. rewrite digits_of_filter. unfold len.
    destruct (Nat.eqb_spec (List.length (filter_isdigit text)) 14)
      as [Hlen|Hlen].
    + split; [|contradiction]. intros _. split; [reflexivity|].
      rewrite <- digits_of_filter. apply digits_of_keeps_eastern.
    + split; [contradiction|]. intros _. split; [reflexivity|].
      unfold manual_conversion_fallback, normalize_with, slice_to,
        filter_isdigit, len.
      now rewrite western_digits_transliterate.
Qed.

(** Both branches, each after retried failures.  A padded answer with
    prose, punctuation and fourteen Eastern glyphs takes the direct
    path: the glyphs come back as they are.  An answer with fifteen
    glyphs takes the fallback: the first fourteen come back converted. *)
Lemma direct_or_fallback_samples :
  fst (extract_id_from_image sample_key sample_fs
         (text_after 2 padded_eastern_mixed) sample_path start)
  = inr (Some eastern_14)
  /\ fst (extract_id_from_image sample_key sample_fs
            (text_after 1 prose_eastern_15) sample_path start)
     = inr (Some western_14).
Proof.
  split.
  - destruct (@direct_or_fallback sample_key sample_fs
                (text_after 2 padded_eastern_mixed) sample_path
                [255; 216; 255; 224]%N start 2 eastern_mixed)
      as [Hdirect _].
    + vm_compute. reflexivity.
    + discriminate.
    + unfold max_retries. lia.
    + intros j Hj. exists 503%N, None. split; [|reflexivity].
      destruct j as [|[|j]]; [reflexivity|reflexivity|lia].
    + vm_compute. reflexivity.
    + destruct Hdirect as [Hresult _]; [vm_compute; reflexivity|].
      rewrite Hresult. vm_compute. reflexivity.
  - destruct (@direct_or_fallback sample_key sample_fs
                (text_after 1 prose_eastern_15) sample_path
                [255; 216; 255; 224]%N start 1
                (strip prose_eastern_15))
      as [_ Hfallback].
    + vm_compute. reflexivity.
    + discriminate.
    + unfold max_retries. lia.
    + intros j Hj. exists 503%N, None. split; [|reflexivity].
      destruct j as [|j]; [reflexivity|lia].
    + vm_compute. reflexivity.
    + destruct Hfallback as [Hresult _]; [vm_compute; discriminate|].
      rewrite Hresult. vm_compute. reflexivity.
Defined.

End PipelineFacts.

(* ===================================================================== *)
(** ** More on the Digit Normalizer *)
(* ===================================================================== *)

Module FallbackProperties.

Import Extractor Spec Observations PyStrFacts NormalizerFacts.

Lemma western_only_check (text : str) :
  western_onlyb text = true -> western_only text.
Proof.
  intros H. apply Forall_forall. intros c Hc Hd.
  unfold western_onlyb in H. rewrite forallb_forall in H.
  specialize (H c Hc). now rewrite Hd in H.
Qed.

Lemma arabic_only_check (text : str) :
  arabic_onlyb text = true -> arabic_only text.
Proof.
  intros H. apply Forall_forall. intros c Hc Hd.
  unfold arabic_onlyb in H. rewrite forallb_forall in H.
  specialize (H c Hc). rewrite Hd in H. cbn [implb] in H.
  now apply orb_true_iff.
Qed.

Lemma western_is_arabic (text : str) : western_only text -> arabic_only text.
Proof.
  unfold western_only, arabic_only. intros H.
  eapply Forall_impl; [|exact H]. cbn beta. intros c Hc Hd. left. auto.
Qed.

(** Converting and selecting the digits commute. *)
Lemma filter_isdigit_transliterate (text : str) :
  filter isdigit (map transliterate text)
  = map transliterate (filter isdigit text).
Proof.
  induction text as [|c text IH]; [reflexivity|].
  cbn [map filter]. rewrite isdigit_transliterate, IH.
  destruct (isdigit c); reflexivity.
Qed.

Lemma transliterate_idempotent (c : codepoint) :
  transliterate (transliterate c) = transliterate c.
Proof.
  unfold transliterate at 1.
  now rewrite transliterate_never_eastern.
Qed.

(** The fallback in closed form: the first 14 digits of the text, each
    converted. *)
Lemma fallback_closed_form (text : str) :
  manual_conversion_fallback text
  = if 14 <=? len (filter_isdigit text)
    then Some (map transliterate (slice_to 14 (filter_isdigit text)))
    else None.
Proof.
  unfold manual_conversion_fallback, slice_to, filter_isdigit, len.
  rewrite western_digits_transliterate, filter_isdigit_transliterate.
  rewrite length_map, firstn_map. reflexivity.
Qed.

(** The fallback gives no result exactly when the text has fewer than
    14 digit characters; the conversion plays no part in the count. *)
Theorem fallback_none_iff_few_digits (text : str) :
  manual_conversion_fallback text = None <-> len (filter_isdigit text) < 14.
Proof.
  rewrite fallback_closed_form.
  destruct (Nat.leb_spec 14 (len (filter_isdigit text))) as [H|H];
    split; intros H'; try discriminate; try lia; reflexivity.
Qed.

(** Two texts with the same digit characters in the same order are
    normalized alike: letters, punctuation and spaces play no part. *)
Theorem fallback_depends_on_digits (a b : str) :
  filter_isdigit a = filter_isdigit b ->
  manual_conversion_fallback a = manual_conversion_fallback b.
Proof.
  intros H. rewrite !fallback_closed_form, H. reflexivity.
Qed.

Lemma fallback_depends_on_digits_sample :
  filter_isdigit eastern_mixed = filter_isdigit eastern_14
  /\ manual_conversion_fallback eastern_mixed
     = manual_conversion_fallback eastern_14.
Proof.
  assert (H : filter_isdigit eastern_mixed = filter_isdigit eastern_14)
    by (vm_compute; reflexivity).
  split; [exact H|].
  exact (@fallback_depends_on_digits eastern_mixed eastern_14 H).
Defined.

(** Stripping the text first, as line 83 does, never changes what the
    fallback returns. *)
Theorem fallback_ignores_stripping (text : str) :
  manual_conversion_fallback (strip text) = manual_conversion_fallback text.
Proof.
  rewrite !fallback_closed_form, filter_isdigit_strip. reflexivity.
Qed.

(** Once a text has its 14 digits, what follows them is ignored: the
    result is the one of the text alone (truncate, never reject). *)
Theorem fallback_prefix_stable (text more id : str) :
  manual_conversion_fallback text = Some id ->
  manual_conversion_fallback (text ++ more) = Some id.
Proof.
  rewrite !fallback_closed_form. unfold filter_isdigit, len, slice_to.
  rewrite filter_app, length_app.
  destruct (Nat.leb_spec 14 (List.length (filter isdigit text))) as [H|H];
    [|discriminate].
  intros Hid.
  destruct (Nat.leb_spec 14 (List.length (filter isdigit text)
                             + List.length (filter isdigit more)))
    as [H'|H']; [|lia].
  rewrite firstn_app.
  replace (14 - List.length (filter isdigit text)) with 0 by lia.
  rewrite firstn_0, app_nil_r. exact Hid.
Qed.

Lemma fallback_prefix_stable_sample :
  manual_conversion_fallback western_14 = Some western_14
  /\ manual_conversion_fallback (western_14 ++ lit "567890 and more")
     = Some western_14.
Proof.
  assert (H : manual_conversion_fallback western_14 = Some western_14)
    by (vm_compute; reflexivity).
  split; [exact H|].
  exact (@fallback_prefix_stable western_14 (lit "567890 and more")
           western_14 H).
Defined.

(** Normalizing a result of the fallback gives it back. *)
Theorem fallback_idempotent (text id : str) :
  manual_conversion_fallback text = Some id ->
  manual_conversion_fallback id = Some id.
Proof.
  intros H. destruct (fallback_shape _ H) as [Hlen Hdig].
  assert (Hfilter : filter_isdigit id = id).
  { unfold filter_isdigit. apply forallb_filter_id.
    apply forallb_forall. intros c Hc.
    exact (proj1 (Forall_forall _ _) Hdig c Hc). }
  assert (Hconv : map transliterate id = id).
  { pose proof (fallback_no_eastern _ H) as Hne.
    rewrite <- (map_id id) at 2. apply map_ext_in. intros c Hc.
    unfold transliterate.
    now rewrite (proj1 (Forall_forall _ _) Hne c Hc). }
  rewrite fallback_closed_form, Hfilter. unfold len in *. rewrite Hlen.
  cbn [Nat.leb]. unfold slice_to. rewrite firstn_all2 by lia.
  now rewrite Hconv.
Qed.

Lemma fallback_idempotent_sample :
  manual_conversion_fallback eastern_15 = Some western_14
  /\ manual_conversion_fallback western_14 = Some western_14.
Proof.
  assert (H : manual_conversion_fallback eastern_15 = Some western_14)
    by (vm_compute; reflexivity).
  split; [exact H|].
  exact (@fallback_idempotent eastern_15 western_14 H).
Defined.

Lemma fallback_arabic_shape (text id : str) :
  arabic_only text ->
  manual_conversion_fallback text = Some id ->
  is_national_id id.
Proof.
  intros Harabic H. destruct (fallback_shape _ H) as [Hlen _].
  split; [exact Hlen|].
  rewrite fallback_closed_form in H.
  destruct (14 <=? len (filter_isdigit text)); [|discriminate].
  assert (id = map transliterate (slice_to 14 (filter_isdigit text)))
    as -> by congruence.
  apply Forall_forall. intros d Hd.
  apply in_map_iff in Hd. destruct Hd as [c [<- Hc]].
  apply in_slice_to in Hc. apply filter_In in Hc. destruct Hc as [Hc Hdig].
  rewrite is_ascii_digit_transliterate. apply orb_true_iff.
  exact (proj1 (Forall_forall _ _) Harabic c Hc Hdig).
Qed.

(** On a text whose digits are ASCII digits or Eastern Arabic glyphs, a
    result of the fallback is 14 ASCII digits. *)
Theorem fallback_national_id (text id : str) :
  arabic_only text ->
  manual_conversion_fallback text = Some id ->
  is_national_id id.
Proof.
  intros Harabic H. destruct (fallback_shape _ H) as [Hlen _].
  split; [exact Hlen|].
  rewrite fallback_closed_form in H.
  destruct (14 <=? len (filter_isdigit text)); [|discriminate].
  assert (id = map transliterate (slice_to 14 (filter_isdigit text)))
    as -> by congruence.
  apply Forall_forall. intros d Hd.
  apply in_map_iff in Hd. destruct Hd as [c [<- Hc]].
  apply in_slice_to in Hc. apply filter_In in Hc. destruct Hc as [Hc Hdig].
  rewrite is_ascii_digit_transliterate. apply orb_true_iff.
  exact (proj1 (Forall_forall _ _) Harabic c Hc Hdig).
Qed.

Lemma fallback_national_id_sample :
  arabic_only eastern_15
  /\ manual_conversion_fallback eastern_15 = Some western_14
  /\ is_national_id western_14.
Proof.
  assert (Ha : arabic_only eastern_15)
    by (apply arabic_only_check; vm_compute; reflexivity).
  assert (H : manual_conversion_fallback eastern_15 = Some western_14)
    by (vm_compute; reflexivity).
  split; [exact Ha|]. split; [exact H|].
  exact (@fallback_national_id eastern_15 western_14 Ha H).
Defined.

(** The fallback never returns an Eastern Arabic glyph. *)
Theorem fallback_never_eastern (text id : str) :
  manual_conversion_fallback text = Some id ->
  Forall (fun c => is_eastern_glyph c = false) id.
Proof.
  intros H. rewrite fallback_closed_form in H.
  destruct (14 <=? len (filter_isdigit text)); [|discriminate].
  assert (id = map transliterate (slice_to 14 (filter_isdigit text)))
    as -> by congruence.
  apply Forall_forall. intros d Hd.
  apply in_map_iff in Hd. destruct Hd as [c [<- _]].
  apply transliterate_never_eastern.
Qed.

Lemma fallback_never_eastern_sample :
  manual_conversion_fallback eastern_mixed = Some western_14
  /\ Forall (fun c => is_eastern_glyph c = false) western_14.
Proof.
  assert (H : manual_conversion_fallback eastern_mixed = Some western_14)
    by (vm_compute; reflexivity).
  split; [exact H|].
  exact (@fallback_never_eastern eastern_mixed western_14 H).
Defined.

End FallbackProperties.

(* ===================================================================== *)
(** ** More on the runs of the program *)
(* ===================================================================== *)

Module RunProperties.

Import Base64 Json Extractor Spec Observations PyStrFacts NormalizerFacts
  AttemptFacts LoopFacts PipelineFacts FallbackProperties.

Lemma str_eqb_neq (a b : str) : a <> b -> str_eqb a b = false.
Proof.
  revert b. induction a as [|x a IH]; intros [|y b] H; try reflexivity.
  - now destruct H.
  - cbn [str_eqb]. destruct (N.eqb_spec x y) as [->|Hxy]; [|reflexivity].
    cbn [andb]. apply IH. intros ->. now apply H.
Qed.

Lemma flow_of_text (attempt : nat) (text : str) :
  flow_of attempt (Text text) = Return (id_of_text text).
Proof.
  unfold flow_of, id_of_text.
  destruct (len (filter_isdigit text) =? 14); reflexivity.
Qed.

(** The value of a text does not depend on the spaces around it. *)
Lemma id_of_text_strip (raw : str) :
  id_of_text (strip raw) = id_of_text raw.
Proof.
  unfold id_of_text.
  rewrite filter_isdigit_strip, !fallback_closed_form, filter_isdigit_strip.
  reflexivity.
Qed.

Lemma id_of_text_none (text : str) :
  id_of_text text = None <-> len (filter_isdigit text) < 14.
Proof.
  unfold id_of_text. rewrite fallback_closed_form.
  destruct (Nat.eqb_spec (len (filter_isdigit text)) 14) as [H|H].
  - rewrite H. split; [discriminate|lia].
  - destruct (Nat.leb_spec 14 (len (filter_isdigit text)));
      split; intros H'; try discriminate; try lia; reflexivity.
Qed.

Lemma id_of_text_western (text id : str) :
  western_only text -> id_of_text text = Some id -> is_national_id id.
Proof.
  intros Hw. unfold id_of_text.
  destruct (Nat.eqb_spec (len (filter_isdigit text)) 14) as [Hlen|Hlen].
  - intros H. assert (id = filter_isdigit text) as -> by congruence.
    split; [exact Hlen|]. apply Forall_forall. intros c Hc.
    apply filter_In in Hc. destruct Hc as [Hc Hd].
    exact (proj1 (Forall_forall _ _) Hw c Hc Hd).
  - apply fallback_arabic_shape, western_is_arabic, Hw.
Qed.

Section Loop.

Variable net : nat -> reply.
Variable url : str.
Variable payload : json.

(** The network side of one attempt: its POST, and the delay if the
    attempt is retried. *)
Lemma network_activity_attempt (attempt : nat) (o : outcome) :
  network_activity
    (Print (AttemptingCall (attempt + 1) max_retries)
     :: Post url payload :: events_of attempt o)
  = Post url payload
    :: match flow_of attempt o with
       | Next => [Sleep (2 ^ attempt)]
       | Return _ => []
       end.
Proof.
  destruct o as [text| |status_code|]; cbn [events_of flow_of].
  - destruct (len (filter_isdigit text) =? 14); reflexivity.
  - reflexivity.
  - destruct (retryable status_code && (attempt <? max_retries - 1));
      reflexivity.
  - reflexivity.
Qed.

(** The loop catches everything: it returns. *)
Lemma loop_returns (attempts : list nat) :
  forall w, exists v w', attempts_loop net url payload attempts w = (inr v, w').
Proof.
  induction attempts as [|a attempts IH]; intros w.
  - rewrite attempts_loop_nil. now eexists; eexists.
  - rewrite attempts_loop_cons. cbv zeta.
    destruct (flow_of a (outcome_of (net (posts w)))).
    + now eexists; eexists.
    + apply IH.
Qed.

(** The loop over the indices [a .. max_retries - 1] is, on the
    network, some retried attempts followed by one last POST. *)
Lemma loop_network_shape (n : nat) :
  forall (a : nat) (w : world),
    a + S n = max_retries ->
    exists k,
      k <= n
      /\ posts (snd (attempts_loop net url payload (seq a (S n)) w))
         = posts w + k + 1
      /\ network_activity
           (trace (snd (attempts_loop net url payload (seq a (S n)) w)))
         = network_activity (trace w)
           ++ flat_map (retried url payload) (seq a k)
           ++ [Post url payload].
Proof.
  induction n as [|n IH]; intros a w Ha.
  - assert (a = max_retries - 1) as -> by (unfold max_retries in *; lia).
    cbn [seq]. rewrite attempts_loop_cons. cbv zeta.
    pose proof (network_activity_attempt (max_retries - 1)
                  (outcome_of (net (posts w)))) as Hnet.
    destruct (last_attempt_returns (outcome_of (net (posts w)))) as [v Hv].
    rewrite Hv in *. exists 0. cbn [snd posts trace seq flat_map app].
    split; [lia|]. split; [lia|].
    now rewrite network_activity_app, Hnet.
  - cbn [seq]. rewrite attempts_loop_cons. cbv zeta.
    pose proof (network_activity_attempt a (outcome_of (net (posts w))))
      as Hnet.
    destruct (flow_of a (outcome_of (net (posts w)))) as [v|].
    + exists 0. cbn [snd posts trace seq flat_map app].
      split; [lia|]. split; [lia|].
      now rewrite network_activity_app, Hnet.
    + match goal with
      | |- context [attempts_loop _ _ _ _ ?w1] =>
          destruct (IH (S a) w1) as [k [Hk [Hp Hn]]]
      end; [lia|].
      cbn [seq] in Hp, Hn. exists (S k).
      split; [lia|]. rewrite Hp, Hn. cbn [posts trace]. split; [lia|].
      rewrite network_activity_app, Hnet. cbn [seq flat_map retried].
      rewrite <- !app_assoc. reflexivity.
Qed.

(** After [k] retried attempts, an answer with a text is final. *)
Lemma loop_answer (k : nat) (w : world) (text : str) :
  k < max_retries ->
  (forall j, j < k -> fails_retryably (net (posts w + j))) ->
  outcome_of (net (posts w + k)) = Text text ->
  fst (attempts_loop net url payload (range max_retries) w)
  = inr (id_of_text text)
  /\ posts (snd (attempts_loop net url payload (range max_retries) w))
     = posts w + k + 1
  /\ network_activity
       (trace (snd (attempts_loop net url payload (range max_retries) w)))
     = network_activity (trace w)
       ++ flat_map (retried url payload) (seq 0 k)
       ++ [Post url payload].
Proof.
  intros Hk Hfail Ho. rewrite (range_split Hk).
  destruct (@retry_prefix net url payload k 0
              (k :: seq (S k) (max_retries - 1 - k)) w)
    as [w' [-> [Hp [Hn _]]]].
  - unfold max_retries in *. lia.
  - exact Hfail.
  - rewrite attempts_loop_cons. cbv zeta. rewrite Hp, Ho, flow_of_text.
    cbn [fst snd posts trace]. split; [reflexivity|]. split; [lia|].
    rewrite network_activity_app, Hn.
    pose proof (network_activity_attempt k (Text text)) as Hnet.
    rewrite flow_of_text in Hnet. rewrite Hnet.
    now rewrite <- app_assoc.
Qed.

(** When the service only ever answers with Western digits, what the
    loop returns is 14 ASCII digits. *)
Lemma loop_result_western (attempts : list nat) :
  (forall j text, outcome_of (net j) = Text text -> western_only text) ->
  forall (w : world) (id : str),
    fst (attempts_loop net url payload attempts w) = inr (Some id) ->
    is_national_id id.
Proof.
  intros Hw. induction attempts as [|a attempts IH]; intros w id.
  - rewrite attempts_loop_nil. discriminate.
  - rewrite attempts_loop_cons. cbv zeta.
    destruct (outcome_of (net (posts w))) as [text| |status_code|] eqn:Ho.
    + rewrite flow_of_text. cbn [fst]. intros H.
      apply id_of_text_western with (text := text).
      * exact (Hw _ _ Ho).
      * congruence.
    + cbn [flow_of fst]. discriminate.
    + cbn [flow_of].
      destruct (retryable status_code && (a <? max_retries - 1)).
      * apply IH.
      * cbn [fst]. discriminate.
    + cbn [flow_of fst]. discriminate.
Qed.

End Loop.

Lemma delays_app (t1 t2 : list event) : delays (t1 ++ t2) = delays t1 ++ delays t2.
Proof. apply flat_map_app. Qed.

(** The delays of a run are those of its network activity. *)
Lemma delays_network_activity (t : list event) :
  delays (network_activity t) = delays t.
Proof.
  induction t as [|e t IH]; [reflexivity|].
  unfold network_activity, delays in *.
  destruct e; cbn [filter is_network is_post is_sleep orb flat_map app];
    now rewrite IH.
Qed.

Lemma delays_retried (url : str) (payload : json) (a k : nat) :
  delays (flat_map (retried url payload) (seq a k)) = map (Nat.pow 2) (seq a k).
Proof.
  revert a. induction k as [|k IH]; intros a; [reflexivity|].
  cbn [seq flat_map map retried]. rewrite delays_app, IH. reflexivity.
Qed.

(** [image_to_base64] never touches the network; and whenever it
    returns, it gives no result exactly when the file is absent or
    cannot be read. *)
Theorem image_to_base64_no_network (fs : str -> file) (filepath : str)
    (w : world) :
  posts (snd (image_to_base64 fs filepath w)) = posts w
  /\ network_activity (trace (snd (image_to_base64 fs filepath w)))
     = network_activity (trace w)
  /\ (forall v,
        fst (image_to_base64 fs filepath w) = inr v ->
        (v = None <-> forall data, fs filepath <> Contents data)).
Proof.
  destruct (fs filepath) as [| |data] eqn:E.
  1-2: rewrite (@image_to_base64_failure fs filepath w)
         by (intros d; congruence);
       cbn [fst snd posts trace]; rewrite network_activity_app, E;
       cbn; rewrite app_nil_r; repeat split; congruence.
  rewrite (@image_to_base64_contents fs filepath data w E).
  cbn [fst snd loading posts trace]. rewrite network_activity_app.
  cbn. rewrite app_nil_r. repeat split.
  - intros ->. discriminate.
  - intros Hno. now destruct (Hno data).
Qed.

(** In the model, where printing succeeds and every POST comes back,
    the function returns. *)
Lemma extract_returns (environ_GEMINI_API_KEY : option str)
    (fs : str -> file) (net : nat -> reply) (image_path : str) (w : world) :
  exists v,
    fst (extract_id_from_image environ_GEMINI_API_KEY fs net image_path w)
    = inr v.
Proof.
  destruct (fs image_path) as [| |[|b data]] eqn:E.
  1-3: destruct (@extract_unloaded environ_GEMINI_API_KEY fs net image_path w)
         as [w' [-> _]];
       [intros d Hd; congruence | now exists None].
  rewrite (@extract_readable environ_GEMINI_API_KEY fs net image_path
             (b :: data) w E) by discriminate.
  match goal with
  | |- context [attempts_loop ?n ?u ?p ?l ?w1] =>
      destruct (loop_returns n u p l w1) as [v [w' ->]]
  end.
  now exists v.
Qed.

Lemma extract_result_nonempty (environ_GEMINI_API_KEY : option str)
    (fs : str -> file) (net : nat -> reply) (image_path : str) (w : world)
    (id : str) :
  fst (extract_id_from_image environ_GEMINI_API_KEY fs net image_path w)
  = inr (Some id) ->
  falsy (Some id) = false.
Proof.
  intros H. assert (Hlen : len id = 14).
  { revert H. destruct (fs image_path) as [| |[|b data]] eqn:E.
    1-3: destruct (@extract_unloaded environ_GEMINI_API_KEY fs net
                     image_path w) as [w' [-> _]];
         [intros d Hd; congruence | discriminate].
    rewrite (@extract_readable environ_GEMINI_API_KEY fs net image_path
               (b :: data) w E) by discriminate.
    intros H. exact (proj1 (loop_result_shape _ _ _ _ _ H)). }
  unfold falsy. now rewrite Hlen.
Qed.

(** With an image that loads, every run is, on the network, [k] POSTs
    each followed by its delay [2 ^ i], then one last POST, for some
    [k] below 5; all POSTs carry the same URL and the same payload. *)
Theorem network_shape (environ_GEMINI_API_KEY : option str)
    (fs : str -> file) (net : nat -> reply) (image_path : str)
    (data : bytes) (w : world) :
  fs image_path = Contents data ->
  data <> [] ->
  let url := API_URL_TEMPLATE_format MODEL_NAME (API_KEY environ_GEMINI_API_KEY) in
  let payload := build_payload (b64encode data) in
  let r := extract_id_from_image environ_GEMINI_API_KEY fs net image_path w in
  exists k,
    k < max_retries
    /\ posts (snd r) = posts w + k + 1
    /\ network_activity (trace (snd r))
       = network_activity (trace w)
         ++ flat_map (retried url payload) (seq 0 k)
         ++ [Post url payload].
Proof.
  intros Hfs Hdata url payload r. subst r.
  rewrite (@extract_readable environ_GEMINI_API_KEY fs net image_path data w
             Hfs Hdata).
  fold url payload.
  destruct (@loop_network_shape net url payload 4 0 (loading image_path w))
    as [k [Hk [Hp Hn]]]; [reflexivity|].
  exists k. unfold range, max_retries. rewrite Hp, Hn.
  cbn [loading posts trace]. split; [lia|]. split; [reflexivity|].
  rewrite network_activity_app. cbn. now rewrite app_nil_r.
Qed.

Lemma network_shape_sample :
  let url := API_URL_TEMPLATE_format MODEL_NAME (API_KEY sample_key) in
  let payload := build_payload (b64encode [255; 216; 255; 224]%N) in
  let r := extract_id_from_image sample_key sample_fs (status_after 2 404)
             sample_path start in
  exists k,
    k < max_retries
    /\ posts (snd r) = posts start + k + 1
    /\ network_activity (trace (snd r))
       = network_activity (trace start)
         ++ flat_map (retried url payload) (seq 0 k)
         ++ [Post url payload].
Proof.
  refine (@network_shape sample_key sample_fs (status_after 2 404)
            sample_path [255; 216; 255; 224]%N start _ _).
  - vm_compute. reflexivity.
  - discriminate.
Defined.

Lemma extract_posts_bound (environ_GEMINI_API_KEY : option str)
    (fs : str -> file) (net : nat -> reply) (image_path : str) (w : world) :
  posts (snd (extract_id_from_image environ_GEMINI_API_KEY fs net
                image_path w))
  <= posts w + max_retries.
Proof.
  destruct (fs image_path) as [| |[|b data]] eqn:E.
  1-3: destruct (@extract_unloaded environ_GEMINI_API_KEY fs net image_path w)
         as [w' [-> [_ [Hp _]]]];
       [intros d Hd; congruence | cbn [snd]; lia].
  rewrite (@extract_readable environ_GEMINI_API_KEY fs net image_path
             (b :: data) w E) by discriminate.
  match goal with
  | |- context [attempts_loop ?n ?u ?p _ ?w1] =>
      destruct (@loop_network_shape n u p 4 0 w1) as [k [Hk [Hp _]]];
        [reflexivity|]
  end.
  unfold range, max_retries. rewrite Hp. cbn [loading posts]. lia.
Qed.

(** Whatever happens, a call issues at most five POSTs. *)
Theorem at_most_five_posts (environ_GEMINI_API_KEY : option str)
    (fs : str -> file) (net : nat -> reply) (image_path : str) (w : world) :
  posts (snd (extract_id_from_image environ_GEMINI_API_KEY fs net
                image_path w))
  <= posts w + max_retries.
Proof.
  destruct (fs image_path) as [| |[|b data]] eqn:E.
  1-3: destruct (@extract_unloaded environ_GEMINI_API_KEY fs net image_path w)
         as [w' [-> [_ [Hp _]]]];
       [intros d Hd; congruence | cbn [snd]; lia].
  rewrite (@extract_readable environ_GEMINI_API_KEY fs net image_path
             (b :: data) w E) by discriminate.
  match goal with
  | |- context [attempts_loop ?n ?u ?p _ ?w1] =>
      destruct (@loop_network_shape n u p 4 0 w1) as [k [Hk [Hp _]]];
        [reflexivity|]
  end.
  unfold range, max_retries. rewrite Hp. cbn [loading posts]. lia.
Qed.

(** Whatever happens, a call sleeps 15 seconds at most in total. *)
Theorem total_delay_bound (environ_GEMINI_API_KEY : option str)
    (fs : str -> file) (net : nat -> reply) (image_path : str) :
  total_delay
    (trace (snd (extract_id_from_image environ_GEMINI_API_KEY fs net
                   image_path start)))
  <= 15.
Proof.
  unfold total_delay. rewrite <- delays_network_activity.
  destruct (fs image_path) as [| |[|b data]] eqn:E.
  1-3: destruct (@extract_unloaded environ_GEMINI_API_KEY fs net image_path
                   start) as [w' [-> [_ [_ [Hn _]]]]];
       [intros d Hd; congruence | cbn [snd]; rewrite Hn; cbn; lia].
  rewrite (@extract_readable environ_GEMINI_API_KEY fs net image_path
             (b :: data) start E) by discriminate.
  match goal with
  | |- context [attempts_loop ?n ?u ?p _ ?w1] =>
      destruct (@loop_network_shape n u p 4 0 w1) as [k [Hk [_ Hn]]];
        [reflexivity|]
  end.
  unfold range, max_retries. rewrite Hn.
  rewrite !delays_app, delays_retried. cbn [loading trace].
  rewrite network_activity_app. cbn [network_activity filter app delays
    flat_map is_network is_post is_sleep orb start trace].
  destruct k as [|[|[|[|[|k]]]]]; cbn; lia.
Qed.

(** Transient failures are recovered from: when the first [k] attempts
    fail with 429, 500 or 503 and attempt [k] (below 5) brings a text,
    the call returns what that text gives, after [k + 1] POSTs and the
    [k] delays. *)
Theorem recovers_after_transient_failures
    (environ_GEMINI_API_KEY : option str) (fs : str -> file)
    (net : nat -> reply) (image_path : str) (data : bytes) (w : world)
    (k : nat) (text : str) :
  fs image_path = Contents data ->
  data <> [] ->
  k < max_retries ->
  (forall j, j < k -> fails_retryably (net (posts w + j))) ->
  outcome_of (net (posts w + k)) = Text text ->
  let url := API_URL_TEMPLATE_format MODEL_NAME (API_KEY environ_GEMINI_API_KEY) in
  let payload := build_payload (b64encode data) in
  let r := extract_id_from_image environ_GEMINI_API_KEY fs net image_path w in
  fst r = inr (id_of_text text)
  /\ posts (snd r) = posts w + k + 1
  /\ network_activity (trace (snd r))
     = network_activity (trace w)
       ++ flat_map (retried url payload) (seq 0 k)
       ++ [Post url payload].
Proof.
  intros Hfs Hdata Hk Hfail Ho url payload r. subst r.
  rewrite (@extract_readable environ_GEMINI_API_KEY fs net image_path data w
             Hfs Hdata).
  fold url payload.
  destruct (@loop_answer net url payload k (loading image_path w) text Hk
              Hfail Ho) as [Hv [Hp Hn]].
  rewrite Hv, Hp, Hn. cbn [loading posts trace].
  split; [reflexivity|]. split; [reflexivity|].
  rewrite network_activity_app. cbn. now rewrite app_nil_r.
Qed.

Lemma recovers_after_two_failures :
  let url := API_URL_TEMPLATE_format MODEL_NAME (API_KEY sample_key) in
  let payload := build_payload (b64encode [255; 216; 255; 224]%N) in
  let r := extract_id_from_image sample_key sample_fs
             (text_after 2 western_14) sample_path start in
  fst r = inr (Some western_14)
  /\ posts (snd r) = 3
  /\ network_activity (trace (snd r))
     = [ Post url payload; Sleep 1; Post url payload; Sleep 2;
         Post url payload ].
Proof.
  refine (@recovers_after_transient_failures sample_key sample_fs
            (text_after 2 western_14) sample_path [255; 216; 255; 224]%N
            start 2 western_14 _ _ _ _ _).
  - vm_compute. reflexivity.
  - discriminate.
  - unfold max_retries. lia.
  - intros j Hj. exists 503%N, None. split; [|reflexivity].
    destruct j as [|[|j]]; [reflexivity|reflexivity|lia].
  - vm_compute. reflexivity.
Defined.

(** With a first answer that carries a text, the call gives no result
    exactly when that text has fewer than 14 digit characters. *)
Theorem no_result_iff_few_digits (environ_GEMINI_API_KEY : option str)
    (fs : str -> file) (net : nat -> reply) (image_path : str)
    (data : bytes) (w : world) (text : str) :
  fs image_path = Contents data ->
  data <> [] ->
  outcome_of (net (posts w)) = Text text ->
  fst (extract_id_from_image environ_GEMINI_API_KEY fs net image_path w)
  = inr None
  <-> len (filter_isdigit text) < 14.
Proof.
  intros Hfs Hdata Ho.
  rewrite (@extract_readable environ_GEMINI_API_KEY fs net image_path data w
             Hfs Hdata).
  match goal with
  | |- context [attempts_loop ?n ?u ?p _ ?w1] =>
      destruct (@loop_answer n u p 0 w1 text) as [-> _]
  end.
  - unfold max_retries. lia.
  - intros j Hj. lia.
  - cbn [loading posts]. now rewrite Nat.add_0_r.
  - rewrite <- id_of_text_none. split; congruence.
Qed.

Lemma no_result_on_short_answer :
  fst (extract_id_from_image sample_key sample_fs
         (always_text (lit "ID: 12345")) sample_path start)
  = inr None
  <-> len (filter_isdigit (lit "ID: 12345")) < 14.
Proof.
  refine (@no_result_iff_few_digits sample_key sample_fs
            (always_text (lit "ID: 12345")) sample_path
            [255; 216; 255; 224]%N start (lit "ID: 12345") _ _ _).
  - vm_compute. reflexivity.
  - discriminate.
  - vm_compute. reflexivity.
Defined.

(** The spaces around the answer play no part: with a first answer of
    the contract's shape, the call returns what the raw text gives. *)
Theorem whitespace_is_irrelevant (environ_GEMINI_API_KEY : option str)
    (fs : str -> file) (net : nat -> reply) (image_path : str)
    (data : bytes) (w : world) (status_code : N) (raw : str) :
  fs image_path = Contents data ->
  data <> [] ->
  is_error_status status_code = false ->
  net (posts w) = Response status_code (Some (candidate_response raw)) ->
  fst (extract_id_from_image environ_GEMINI_API_KEY fs net image_path w)
  = inr (id_of_text raw).
Proof.
  intros Hfs Hdata Hst Hnet.
  rewrite (@extract_readable environ_GEMINI_API_KEY fs net image_path data w
             Hfs Hdata).
  match goal with
  | |- context [attempts_loop ?n ?u ?p _ ?w1] =>
      destruct (@loop_answer n u p 0 w1 (strip raw)) as [-> _]
  end.
  - unfold max_retries. lia.
  - intros j Hj. lia.
  - cbn [loading posts]. rewrite Nat.add_0_r, Hnet.
    now apply outcome_of_candidate_response.
  - now rewrite id_of_text_strip.
Qed.

Lemma whitespace_is_irrelevant_sample :
  fst (extract_id_from_image sample_key sample_fs
         (always_text (lit "  29001011234567  ")) sample_path start)
  = inr (id_of_text (lit "  29001011234567  ")).
Proof.
  refine (@whitespace_is_irrelevant sample_key sample_fs
            (always_text (lit "  29001011234567  ")) sample_path
            [255; 216; 255; 224]%N start 200%N (lit "  29001011234567  ")
            _ _ _ _).
  - vm_compute. reflexivity.
  - discriminate.
  - reflexivity.
  - reflexivity.
Defined.

(** When the service does what the system instruction asks, and only
    ever answers with Western digits, a result is 14 ASCII digits. *)
Theorem western_answers_give_national_id
    (environ_GEMINI_API_KEY : option str) (fs : str -> file)
    (net : nat -> reply) (image_path : str) (w : world) (id : str) :
  (forall j text, outcome_of (net j) = Text text -> western_only text) ->
  fst (extract_id_from_image environ_GEMINI_API_KEY fs net image_path w)
  = inr (Some id) ->
  is_national_id id.
Proof.
  intros Hw. destruct (fs image_path) as [| |[|b data]] eqn:E.
  1-3: destruct (@extract_unloaded environ_GEMINI_API_KEY fs net image_path w)
         as [w' [-> _]];
       [intros d Hd; congruence | discriminate].
  rewrite (@extract_readable environ_GEMINI_API_KEY fs net image_path
             (b :: data) w E) by discriminate.
  now apply loop_result_western.
Qed.

Lemma western_answer_sample :
  is_national_id (lit "29001011234567").
Proof.
  refine (@western_answers_give_national_id sample_key sample_fs
            (always_text (lit " ID 29001011234567 ")) sample_path start
            (lit "29001011234567") _ _).
  - intros j text. unfold always_text.
    rewrite outcome_of_candidate_response by reflexivity.
    intros H. assert (text = strip (lit " ID 29001011234567 ")) as ->
      by congruence.
    apply western_only_check. vm_compute. reflexivity.
  - vm_compute. reflexivity.
Defined.

(** A run of the program once the key is accepted and a path is read
    (in the model, where printing succeeds and every POST comes back). *)
Lemma main_run (environ_GEMINI_API_KEY : option str) (image_path : str)
    (fs : str -> file) (net : nat -> reply) (w : world) :
  str_eqb (API_KEY environ_GEMINI_API_KEY) PLACEHOLDER = false ->
  let w1 :=
    {| posts := posts w;
       trace := trace w
                ++ [ Input (lit "Enter full path to ID image file: ");
                     Print StartingExtraction ] |} in
  let r := extract_id_from_image environ_GEMINI_API_KEY fs net image_path w1 in
  exists v,
    fst r = inr v
    /\ main environ_GEMINI_API_KEY (Some image_path) fs net w
       = (inr tt,
          {| posts := posts (snd r);
             trace := trace (snd r)
                      ++ match v with
                         | Some id =>
                             [Print Banner; Print (ExtractedID id);
                              Print Banner]
                         | None => [Print FailedToExtract]
                         end
                      ++ [Print ExtractionComplete] |}).
Proof.
  intros Hkey w1 r.
  destruct (extract_returns environ_GEMINI_API_KEY fs net image_path w1)
    as [v Hv].
  exists v. split; [exact Hv|].
  unfold main. rewrite Hkey.
  unfold input, or_raise, print, emit, bind, ret.
  cbn [posts trace]. rewrite <- app_assoc. cbn [app]. fold w1. fold r.
  assert (Hne : forall id, v = Some id -> falsy (Some id) = false).
  { intros id ->.
    exact (@extract_result_nonempty environ_GEMINI_API_KEY fs net
             image_path w1 id Hv). }
  change (fst r = inr v) in Hv.
  clearbody r. destruct r as [[e|v'] w2]; cbn [fst snd] in *;
    [discriminate|].
  assert (v' = v) as -> by congruence.
  destruct v as [id|]; cbn [posts trace].
  - rewrite (Hne id eq_refl). cbn [posts trace].
    rewrite <- !app_assoc. reflexivity.
  - rewrite <- !app_assoc. reflexivity.
Qed.

(** With a configured key and a path typed at the prompt, once the
    extraction has returned, what the program has done is: the prompt,
    the opening line, the extraction, then the framed ID if the
    extraction returned one (a returned ID is never taken for a failure)
    and the failure message if it returned none, then the closing
    line. *)
Theorem main_reports (key image_path : str) (fs : str -> file)
    (net : nat -> reply) (w : world) (v : option str) :
  key <> PLACEHOLDER ->
  let w1 :=
    {| posts := posts w;
       trace := trace w
                ++ [ Input (lit "Enter full path to ID image file: ");
                     Print StartingExtraction ] |} in
  let r := extract_id_from_image (Some key) fs net image_path w1 in
  fst r = inr v ->
  trace (snd (main (Some key) (Some image_path) fs net w))
  = trace (snd r)
    ++ match v with
       | Some id => [Print Banner; Print (ExtractedID id); Print Banner]
       | None => [Print FailedToExtract]
       end
    ++ [Print ExtractionComplete].
Proof.
  intros Hkey w1 r Hv.
  destruct (@main_run (Some key) image_path fs net w) as [v' [Hv' Hmain]].
  - cbn [API_KEY]. now apply str_eqb_neq.
  - fold w1 in Hv', Hmain. fold r in Hv', Hmain.
    assert (v' = v) as -> by congruence.
    rewrite Hmain. reflexivity.
Qed.

Lemma main_reports_sample :
  fst (extract_id_from_image (Some (lit "test-key")) sample_fs
         (always_text western_14) sample_path
         {| posts := 0;
            trace := [ Input (lit "Enter full path to ID image file: ");
                       Print StartingExtraction ] |})
  = inr (Some western_14)
  /\ printed (trace (snd (main (Some (lit "test-key")) (Some sample_path)
                            sample_fs (always_text western_14) start)))
     = [ StartingExtraction; LoadingImage sample_path;
         AttemptingCall 1 5; ExtractionSuccessful;
         Banner; ExtractedID western_14; Banner; ExtractionComplete ].
Proof.
  assert (Hkey : lit "test-key" <> PLACEHOLDER) by (vm_compute; discriminate).
  assert (Hv : fst (extract_id_from_image (Some (lit "test-key")) sample_fs
                      (always_text western_14) sample_path
                      {| posts := 0;
                         trace := [ Input (lit "Enter full path to ID image file: ");
                                    Print StartingExtraction ] |})
               = inr (Some western_14)) by (vm_compute; reflexivity).
  split; [exact Hv|].
  rewrite (@main_reports (lit "test-key") sample_path sample_fs
             (always_text western_14) start (Some western_14) Hkey Hv).
  vm_compute. reflexivity.
Defined.

(** With a configured key and no line to read at the prompt, the
    program ends on the uncaught exception of [input], right after the
    prompt: nothing is loaded, nothing is posted. *)
Theorem main_end_of_input (key : str) (fs : str -> file)
    (net : nat -> reply) (w : world) :
  key <> PLACEHOLDER ->
  main (Some key) None fs net w
  = (inl OtherException,
     {| posts := posts w;
        trace := trace w
                 ++ [Input (lit "Enter full path to ID image file: ")] |}).
Proof.
  intros Hkey. unfold main, API_KEY. rewrite (str_eqb_neq Hkey).
  reflexivity.
Qed.

Lemma main_end_of_input_sample :
  main sample_key None sample_fs (always_text western_14) start
  = (inl OtherException,
     {| posts := 0;
        trace := [Input (lit "Enter full path to ID image file: ")] |}).
Proof.
  refine (@main_end_of_input (lit "test-key") sample_fs
            (always_text western_14) start _).
  vm_compute. discriminate.
Defined.

(** The whole program, whatever its surroundings, issues at most five
    POSTs. *)
Theorem main_at_most_five_posts (environ_GEMINI_API_KEY stdin : option str)
    (fs : str -> file) (net : nat -> reply) (w : world) :
  posts (snd (main environ_GEMINI_API_KEY stdin fs net w))
  <= posts w + max_retries.
Proof.
  destruct (str_eqb (API_KEY environ_GEMINI_API_KEY) PLACEHOLDER) eqn:Hkey.
  - unfold main. rewrite Hkey. cbn. lia.
  - destruct stdin as [image_path|].
    + destruct (@main_run environ_GEMINI_API_KEY image_path fs net w Hkey)
        as [v [_ ->]].
      cbn [snd posts].
      match goal with
      | |- posts (snd (extract_id_from_image ?e ?f ?n ?p ?w1)) <= _ =>
          pose proof (extract_posts_bound e f n p w1) as H
      end.
      exact H.
    + unfold main. rewrite Hkey. cbn. lia.
Qed.

(** A body without candidates (the key missing, or its value null,
    empty, zero or false) gives no result after that one POST, with the
    message of line 93. *)
Theorem missing_candidates_no_result (environ_GEMINI_API_KEY : option str)
    (fs : str -> file) (net : nat -> reply) (image_path : str)
    (data : bytes) (w : world) (status_code : N)
    (d : list (str * json)) :
  fs image_path = Contents data ->
  data <> [] ->
  is_error_status status_code = false ->
  net (posts w) = Response status_code (Some (JDict d)) ->
  match lookup d (lit "candidates") with
  | Some candidates => truthy candidates = false
  | None => True
  end ->
  let url := API_URL_TEMPLATE_format MODEL_NAME (API_KEY environ_GEMINI_API_KEY) in
  let payload := build_payload (b64encode data) in
  extract_id_from_image environ_GEMINI_API_KEY fs net image_path w
  = (inr None,
     {| posts := S (posts w);
        trace := trace w
                 ++ [ Print (LoadingImage image_path);
                      Print (AttemptingCall 1 max_retries);
                      Post url payload;
                      Print NoValidContent ] |}).
Proof.
  intros Hfs Hdata Hst Hnet Hcand url payload.
  rewrite (@extract_readable environ_GEMINI_API_KEY fs net image_path data w
             Hfs Hdata).
  fold url payload. unfold range, max_retries. cbn [seq].
  rewrite attempts_loop_cons. cbv zeta. cbn [loading posts trace].
  assert (Ho : outcome_of (net (posts w)) = NoCandidates).
  { rewrite Hnet. unfold outcome_of. rewrite Hst. cbn [get].
    destruct (lookup d (lit "candidates")) as [c|].
    - now rewrite Hcand.
    - reflexivity. }
  rewrite Ho. cbn [flow_of events_of]. rewrite <- app_assoc. reflexivity.
Qed.

Lemma missing_candidates_sample :
  let url := API_URL_TEMPLATE_format MODEL_NAME (API_KEY sample_key) in
  let payload := build_payload (b64encode [255; 216; 255; 224]%N) in
  extract_id_from_image sample_key sample_fs
    (fun _ => Response 200 (Some (JDict [(lit "candidates", JList [])])))
    sample_path start
  = (inr None,
     {| posts := 1;
        trace := [ Print (LoadingImage sample_path);
                   Print (AttemptingCall 1 max_retries);
                   Post url payload;
                   Print NoValidContent ] |}).
Proof.
  refine (@missing_candidates_no_result sample_key sample_fs
            (fun _ => Response 200 (Some (JDict [(lit "candidates", JList [])])))
            sample_path [255; 216; 255; 224]%N start 200%N
            [(lit "candidates", JList [])] _ _ _ _ _).
  - vm_compute. reflexivity.
  - discriminate.
  - reflexivity.
  - reflexivity.
  - vm_compute. reflexivity.
Defined.

End RunProperties.

(* ===================================================================== *)
(** ** The encoding of the image *)
(* ===================================================================== *)

Module Base64Properties.

Import Base64 Json Extractor Spec Observations PyStrFacts PipelineFacts.

Lemma in_byte_values (b : N) : (b < 256)%N -> In b byte_values.
Proof.
  intros H. unfold byte_values. apply in_map_iff.
  exists (N.to_nat b). split; [apply N2Nat.id|].
  apply in_seq. lia.
Qed.

(** A property of one or two bytes is checked by running it on all of
    them. *)
Lemma check_bytes (P : N -> bool) :
  forallb P byte_values = true ->
  forall a, (a < 256)%N -> P a = true.
Proof.
  intros H a Ha. rewrite forallb_forall in H.
  apply H, in_byte_values, Ha.
Qed.

Lemma check_bytes2 (P : N -> N -> bool) :
  forallb (fun a => forallb (P a) byte_values) byte_values = true ->
  forall a b, (a < 256)%N -> (b < 256)%N -> P a b = true.
Proof.
  intros H a b Ha Hb. rewrite forallb_forall in H.
  specialize (H a (in_byte_values Ha)). rewrite forallb_forall in H.
  apply H, in_byte_values, Hb.
Qed.

Ltac by_bytes :=
  intros; apply N.eqb_eq;
  match goal with
  | Ha : (?a < 256)%N, Hb : (?b < 256)%N |- _ =>
      revert a b Ha Hb;
      apply (check_bytes2 (fun a b => _)); vm_compute; reflexivity
  | Ha : (?a < 256)%N |- _ =>
      revert a Ha;
      apply (check_bytes (fun a => _)); vm_compute; reflexivity
  end.

Lemma decode_first (a b : N) :
  (a < 256)%N -> (b < 256)%N ->
  N.lor (N.shiftl (sextet (e0 a)) 2) (N.shiftr (sextet (e1 a b)) 4) = a.
Proof. by_bytes. Qed.

Lemma decode_first_last (a : N) :
  (a < 256)%N ->
  N.lor (N.shiftl (sextet (e0 a)) 2) (N.shiftr (sextet (e1_last a)) 4) = a.
Proof. by_bytes. Qed.

Lemma decode_second_high (a b : N) :
  (a < 256)%N -> (b < 256)%N ->
  N.land (sextet (e1 a b)) 15 = N.shiftr b 4.
Proof. by_bytes. Qed.

Lemma decode_second_low (b c : N) :
  (b < 256)%N -> (c < 256)%N ->
  N.shiftr (sextet (e2 b c)) 2 = N.land b 15.
Proof. by_bytes. Qed.

Lemma decode_second_low_last (b : N) :
  (b < 256)%N ->
  N.shiftr (sextet (e2_last b)) 2 = N.land b 15.
Proof. by_bytes. Qed.

Lemma nibbles (b : N) :
  (b < 256)%N ->
  N.lor (N.shiftl (N.shiftr b 4) 4) (N.land b 15) = b.
Proof. by_bytes. Qed.

Lemma decode_third (b c : N) :
  (b < 256)%N -> (c < 256)%N ->
  N.lor (N.shiftl (N.land (sextet (e2 b c)) 3) 6) (sextet (e3 c)) = c.
Proof. by_bytes. Qed.

Lemma e2_not_pad (b c : N) :
  (b < 256)%N -> (c < 256)%N -> (e2 b c =? pad)%N = false.
Proof.
  intros Hb Hc. apply negb_true_iff. revert b c Hb Hc.
  apply (check_bytes2 (fun b c => negb (e2 b c =? pad)%N)).
  vm_compute. reflexivity.
Qed.

Lemma e2_last_not_pad (b : N) :
  (b < 256)%N -> (e2_last b =? pad)%N = false.
Proof.
  intros Hb. apply negb_true_iff. revert b Hb.
  apply (check_bytes (fun b => negb (e2_last b =? pad)%N)).
  vm_compute. reflexivity.
Qed.

Lemma e3_not_pad (c : N) :
  (c < 256)%N -> (e3 c =? pad)%N = false.
Proof.
  intros Hc. apply negb_true_iff. revert c Hc.
  apply (check_bytes (fun c => negb (e3 c =? pad)%N)).
  vm_compute. reflexivity.
Qed.

Lemma decode_second (a b c : N) :
  (a < 256)%N -> (b < 256)%N -> (c < 256)%N ->
  N.lor (N.shiftl (N.land (sextet (e1 a b)) 15) 4)
        (N.shiftr (sextet (e2 b c)) 2) = b.
Proof.
  intros Ha Hb Hc.
  rewrite decode_second_high, decode_second_low by assumption.
  now apply nibbles.
Qed.

Lemma decode_second_last (a b : N) :
  (a < 256)%N -> (b < 256)%N ->
  N.lor (N.shiftl (N.land (sextet (e1 a b)) 15) 4)
        (N.shiftr (sextet (e2_last b)) 2) = b.
Proof.
  intros Ha Hb.
  rewrite decode_second_high, decode_second_low_last by assumption.
  now apply nibbles.
Qed.

(** [b64encode] by groups. *)
Lemma b64encode_group (a b c : N) (rest : bytes) :
  b64encode (a :: b :: c :: rest)
  = e0 a :: e1 a b :: e2 b c :: e3 c :: b64encode rest.
Proof. reflexivity. Qed.

Lemma b64encode_last_two (a b : N) :
  b64encode [a; b] = [e0 a; e1 a b; e2_last b; pad].
Proof. reflexivity. Qed.

Lemma b64encode_last_one (a : N) :
  b64encode [a] = [e0 a; e1_last a; pad; pad].
Proof. reflexivity. Qed.

(** Induction three bytes at a time. *)
Lemma bytes_ind3 (P : bytes -> Prop) :
  P [] ->
  (forall a, P [a]) ->
  (forall a b, P [a; b]) ->
  (forall a b c rest, P rest -> P (a :: b :: c :: rest)) ->
  forall data, P data.
Proof.
  intros H0 H1 H2 H3.
  assert (H : forall n data, List.length data < n -> P data).
  { induction n as [|n IH]; intros data Hn; [lia|].
    destruct data as [|a [|b [|c rest]]]; auto.
    apply H3, IH. cbn [List.length] in Hn. lia. }
  intros data. apply (H (S (List.length data))). lia.
Qed.

Lemma alphabet_is_base64 (i : N) : is_base64_char (alphabet i) = true.
Proof.
  unfold alphabet.
  destruct (N.ltb_spec i 26);
    [apply in_ranges_intro with (r := (65, 90)%N);
     [cbn; tauto | unfold in_range; cbn [fst snd];
                   apply andb_true_iff; rewrite !N.leb_le; lia]|].
  destruct (N.ltb_spec i 52);
    [apply in_ranges_intro with (r := (97, 122)%N);
     [cbn; tauto | unfold in_range; cbn [fst snd];
                   apply andb_true_iff; rewrite !N.leb_le; lia]|].
  destruct (N.ltb_spec i 62);
    [apply in_ranges_intro with (r := (48, 57)%N);
     [cbn; tauto | unfold in_range; cbn [fst snd];
                   apply andb_true_iff; rewrite !N.leb_le; lia]|].
  destruct (i =? 62)%N; reflexivity.
Qed.

Lemma b64encode_chars (data : bytes) :
  Forall (fun c => is_base64_char c = true) (b64encode data).
Proof.
  induction data as [|a|a b|a b c rest IH] using bytes_ind3.
  - constructor.
  - rewrite b64encode_last_one.
    repeat constructor; try apply alphabet_is_base64.
  - rewrite b64encode_last_two.
    repeat constructor; try apply alphabet_is_base64.
  - rewrite b64encode_group.
    repeat (constructor; [apply alphabet_is_base64|]). exact IH.
Qed.

Lemma b64encode_len (data : bytes) :
  len (b64encode data) = 4 * ((List.length data + 2) / 3).
Proof.
  induction data as [|a|a b|a b c rest IH] using bytes_ind3;
    try reflexivity.
  rewrite b64encode_group. unfold len in *. cbn [List.length]. rewrite IH.
  replace (S (S (S (List.length rest))) + 2)
    with (1 * 3 + (List.length rest + 2)) by lia.
  rewrite Nat.div_add_l by lia. lia.
Qed.

Lemma b64decode_encode (data : bytes) :
  Forall (fun b => is_byte b = true) data ->
  b64decode (b64encode data) = data.
Proof.
  induction data as [|a|a b|a b c rest IH] using bytes_ind3; intros H.
  - reflexivity.
  - apply Forall_inv in H. apply N.ltb_lt in H.
    rewrite b64encode_last_one. cbn [b64decode].
    rewrite N.eqb_refl. now rewrite decode_first_last.
  - pose proof (Forall_inv H) as Ha. apply Forall_inv_tail in H.
    pose proof (Forall_inv H) as Hb.
    apply N.ltb_lt in Ha. apply N.ltb_lt in Hb.
    rewrite b64encode_last_two. cbn [b64decode].
    rewrite e2_last_not_pad, N.eqb_refl by assumption.
    now rewrite decode_first, decode_second_last.
  - pose proof (Forall_inv H) as Ha. apply Forall_inv_tail in H.
    pose proof (Forall_inv H) as Hb. apply Forall_inv_tail in H.
    pose proof (Forall_inv H) as Hc. apply Forall_inv_tail in H.
    apply N.ltb_lt in Ha. apply N.ltb_lt in Hb. apply N.ltb_lt in Hc.
    rewrite b64encode_group. cbn [b64decode].
    rewrite e2_not_pad, e3_not_pad by assumption.
    rewrite decode_first, decode_second, decode_third by assumption.
    now rewrite IH.
Qed.

(** Values of [base64.b64encode] on a few byte strings. *)
Example b64encode_samples :
  b64encode [255; 216; 255; 224]%N = lit "/9j/4A=="
  /\ b64encode [0]%N = lit "AA=="
  /\ b64encode [1; 2]%N = lit "AQI="
  /\ b64encode [250; 251; 252; 253; 254; 255]%N = lit "+vv8/f7/"
  /\ b64encode (lit "Man is distinguished") = lit "TWFuIGlzIGRpc3Rpbmd1aXNoZWQ=".
Proof. repeat split; vm_compute; reflexivity. Qed.

(** What [image_to_base64] returns for a readable file is well-formed
    base64 text: four characters for every three bytes (the last group
    padded), all of them of the base64 alphabet. *)
Theorem image_payload_well_formed (fs : str -> file) (filepath : str)
    (data : bytes) (w : world) :
  fs filepath = Contents data ->
  exists s,
    fst (image_to_base64 fs filepath w) = inr (Some s)
    /\ len s = 4 * ((List.length data + 2) / 3)
    /\ Forall (fun c => is_base64_char c = true) s.
Proof.
  intros H. exists (b64encode data).
  rewrite (@image_to_base64_contents fs filepath data w H).
  split; [reflexivity|]. split; [apply b64encode_len|apply b64encode_chars].
Qed.

Lemma image_payload_well_formed_sample :
  exists s,
    fst (image_to_base64 sample_fs sample_path start) = inr (Some s)
    /\ len s = 8
    /\ Forall (fun c => is_base64_char c = true) s.
Proof.
  refine (@image_payload_well_formed sample_fs sample_path
            [255; 216; 255; 224]%N start _).
  vm_compute. reflexivity.
Defined.

(** The payload loses nothing: the bytes of the file are read back from
    what [image_to_base64] returns. *)
Theorem image_payload_round_trip (fs : str -> file) (filepath : str)
    (data : bytes) (w : world) :
  fs filepath = Contents data ->
  Forall (fun b => is_byte b = true) data ->
  exists s,
    fst (image_to_base64 fs filepath w) = inr (Some s)
    /\ b64decode s = data.
Proof.
  intros H Hbytes. exists (b64encode data).
  rewrite (@image_to_base64_contents fs filepath data w H).
  split; [reflexivity|]. now apply b64decode_encode.
Qed.

Lemma image_payload_round_trip_sample :
  exists s,
    fst (image_to_base64 sample_fs sample_path start) = inr (Some s)
    /\ b64decode s = [255; 216; 255; 224]%N.
Proof.
  refine (@image_payload_round_trip sample_fs sample_path
            [255; 216; 255; 224]%N start _ _).
  - vm_compute. reflexivity.
  - repeat constructor.
Defined.

End Base64Properties.
